(** * ConsciousLlmAi-HybridCore: a shallow embedding of the TypeScript sources

    The development follows the repository file by file:

    - [JS]: the part of the ECMAScript runtime the sources rely on
      (IEEE-754 binary64 numbers, [Float32Array] stores, [Math.round],
      [Number.prototype.toString], [toFixed], UTF-16 strings, [split],
      [includes], [join], [slice]);
    - [TernaryVPU], [CognitiveLayer], [ResonanceNetwork], [SparseTensorRing],
      [HybridCore], [NeuralModeController]: one module per class, with the
      object state of each class as a record threaded through its methods;
    - [Spec]: the notions the specification states its properties with.

    JavaScript numbers are Rocq's primitive binary64 floats, so every
    arithmetic step of the sources is evaluated bit for bit.  The one
    operation ECMA-262 leaves to the implementation, [Math.cos], is a
    parameter of the classes that call it. *)

From Stdlib Require Import ZArith List Floats Lia Bool String Ascii.
From Stdlib Require Uint63.
From stdpp Require Import base list.
Import ListNotations.

#[local] Set Warnings "-inexact-float".
#[local] Open Scope Z_scope.

(** ** The JavaScript runtime *)

Module JS.

(** A JavaScript number. *)
Abbreviation number := float.

(** A JavaScript string: its sequence of UTF-16 code units. *)
Abbreviation jsstring := (list Z).

(** An ASCII literal of the sources, as code units. *)
Definition lit (s : string) : jsstring :=
  map (fun c => Z.of_nat (nat_of_ascii c)) (list_ascii_of_string s).

(** A value that is either a string or [undefined] (an array read past the
    end, as in [rule.split('=>')[1]]). *)
Inductive strval :=
| Undefined
| Str (s : jsstring).

(** Integer to number (array lengths, loop indices, [Int8Array] cells and
    character codes are all well below 2^63). *)
Definition Z2F (z : Z) : number :=
  match z with
  | Z0 => 0%float
  | Zpos _ => of_uint63 (Uint63.of_Z z)
  | Zneg p => (- of_uint63 (Uint63.of_Z (Zpos p)))%float
  end.

Definition nat2F (n : nat) : number := Z2F (Z.of_nat n).

(** [x < y] and [x > y] on numbers; both are false when an operand is NaN. *)
Definition lt (x y : number) : bool := (x <? y)%float.
Definition gt (x y : number) : bool := (y <? x)%float.

(** [Math.PI] *)
Definition PI : number := 0x1.921fb54442d18p+1%float.

(** [Math.abs] *)
Definition Math_abs (x : number) : number := abs x.

(** [Math.min(x, y)]: NaN if either is NaN, and [-0] is below [+0]. *)
Definition Math_min (x y : number) : number :=
  if is_nan x then x
  else if is_nan y then y
  else if (x <? y)%float then x
  else if (y <? x)%float then y
  else if get_sign x then x else y.

(** [Math.max(...xs)]: [-Infinity] on no argument, NaN if any is NaN. *)
Definition Math_max2 (x y : number) : number :=
  if is_nan x then x
  else if is_nan y then y
  else if (x <? y)%float then y
  else if (y <? x)%float then x
  else if get_sign x then y else x.

Definition Math_max (xs : list number) : number :=
  fold_left Math_max2 xs neg_infinity.

(** The spread call [Math.max(...xs)] as an engine runs it: every element
    becomes one argument of the call, and an engine that supports at most
    [argument_limit] arguments refuses a longer one with a [RangeError]
    ([None]). *)
Definition Math_max_spread (argument_limit : nat) (xs : list number)
    : option number :=
  if (length xs <=? argument_limit)%nat then Some (Math_max xs) else None.

(** [xs.indexOf(v)] with strict equality ([NaN] is never found); [None] is
    the source's [-1]. *)
Fixpoint indexOf_from (i : nat) (xs : list number) (v : number) : option nat :=
  match xs with
  | [] => None
  | x :: xs' => if (x =? v)%float then Some i else indexOf_from (S i) xs' v
  end.

Definition indexOf (xs : list number) (v : number) : option nat :=
  indexOf_from 0 xs v.

(** The value stored by a write into a [Float32Array]: the number rounded
    to binary32 (ties to even), read back as a binary64. *)
Definition fround (x : number) : number :=
  match Prim2SF x with
  | S754_finite s m e => SF2Prim (binary_round 24 128 s m e)
  | _ => x
  end.

(** The result of [Math.round]: an integral number, or a value that is not
    finite. [-0] is recorded as the integer 0: no comparison tells them
    apart. *)
Inductive rounded :=
| RNaN
| RInf (negative : bool)
| RInt (z : Z).

(** [Math.round(x)]: the integer closest to [x], ties towards +Infinity,
    computed on the exact value [(-1)^s * m * 2^e] of [x]. *)
Definition Math_round (x : number) : rounded :=
  match Prim2SF x with
  | S754_nan => RNaN
  | S754_infinity s => RInf s
  | S754_zero _ => RInt 0
  | S754_finite s m e =>
      let sm := if s then Zneg m else Zpos m in
      if 0 <=? e then RInt (sm * 2 ^ e)
      else RInt ((2 * sm + 2 ^ (- e)) / 2 ^ (1 - e))
  end.

(** ** Strings *)

Fixpoint prefixb (p s : jsstring) : bool :=
  match p, s with
  | [], _ => true
  | _ :: _, [] => false
  | a :: p', b :: s' => (a =? b) && prefixb p' s'
  end.

(** [s.includes(sub)] *)
Fixpoint includes (s sub : jsstring) : bool :=
  prefixb sub s ||
  match s with
  | [] => false
  | _ :: s' => includes s' sub
  end.

(** [s.split(sep)] for a non-empty separator: [cur] is the piece being
    read (reversed), [skip] counts the code units of a separator that was
    just matched and is still to be passed over. *)
Fixpoint split_go (sep : jsstring) (skip : nat) (cur : jsstring)
    (s : jsstring) : list jsstring :=
  match s with
  | [] => [rev cur]
  | c :: s' =>
      match skip with
      | S k => split_go sep k cur s'
      | O =>
          if prefixb sep s
          then rev cur :: split_go sep (Nat.pred (length sep)) [] s'
          else split_go sep 0%nat (c :: cur) s'
      end
  end.

Definition split (s sep : jsstring) : list jsstring := split_go sep 0 [] s.

(** [arr[i]] on an array of strings *)
Definition at_index (arr : list jsstring) (i : nat) : strval :=
  match arr !! i with
  | Some s => Str s
  | None => Undefined
  end.

(** [arr.join(sep)] on an array of strings *)
Fixpoint join (sep : jsstring) (arr : list jsstring) : jsstring :=
  match arr with
  | [] => []
  | [s] => s
  | s :: rest => s ++ sep ++ join sep rest
  end.

(** [s.slice(-k)]: the last [k] code units, all of [s] when it is shorter *)
Definition slice_last (k : nat) (s : jsstring) : jsstring :=
  drop (length s - k) s.

(** ** Printing numbers *)

(** The [k] low decimal digits of [s], most significant first. *)
Fixpoint digits (k : nat) (s : Z) (acc : jsstring) : jsstring :=
  match k with
  | O => acc
  | S k' => digits k' (s / 10) ((48 + s mod 10) :: acc)
  end.

Fixpoint strip_zeros (s : jsstring) : jsstring :=
  match s with
  | c :: (_ :: _) as rest => if c =? 48 then strip_zeros rest else s
  | _ => s
  end.

(** Decimal representation of a non-negative integer. *)
Definition decimal (z : Z) : jsstring :=
  strip_zeros (digits (S (Z.to_nat (Z.log2 z))) z []).

Definition zeros (n : Z) : jsstring := repeat 48 (Z.to_nat n).

(** [a * 2^p * 10^q], used to compare binary and decimal values exactly. *)
Record sci := Sci { sci_m : Z; sci_2 : Z; sci_10 : Z }.

Definition sci_compare (a b : sci) : comparison :=
  let p := Z.min (sci_2 a) (sci_2 b) in
  let q := Z.min (sci_10 a) (sci_10 b) in
  (sci_m a * 2 ^ (sci_2 a - p) * 10 ^ (sci_10 a - q)
     ?= sci_m b * 2 ^ (sci_2 b - p) * 10 ^ (sci_10 b - q)).

Definition sci_ltb (a b : sci) : bool :=
  match sci_compare a b with Lt => true | _ => false end.

Definition sci_leb (a b : sci) : bool :=
  match sci_compare a b with Gt => false | _ => true end.

(** The least [n] from [n] on with [m * 2^e < 10^n]. *)
Fixpoint find_n (fuel : nat) (n : Z) (m e : Z) : Z :=
  match fuel with
  | O => n
  | S f => if sci_ltb (Sci m e 0) (Sci 1 0 n) then n else find_n f (n + 1) m e
  end.

(** A lower bound of the decimal exponent of [m * 2^e], from which the
    search starts: [m * 2^e >= 2^b] with [b = log2 m + e], and
    [0.30102 < log10 2 < 0.30103]. *)
Definition decimal_exponent_below (m e : Z) : Z :=
  let b := Z.log2 m + e in
  (if 0 <=? b then b * 30102 else b * 30103) / 100000 - 1.

(** Does the decimal [s * 10^q] read back as the double [m * 2^e]?  The
    numbers that round to [m * 2^e] lie between the midpoints to its two
    neighbours, ends included when [m] is even. *)
Definition reads_back (m e : Z) (s q : Z) : bool :=
  let c := Sci s 0 q in
  let hi := Sci (2 * m + 1) (e - 1) 0 in
  let lo := if (m =? 2 ^ 52) && (-1074 <? e)
            then Sci (4 * m - 1) (e - 2) 0
            else Sci (2 * m - 1) (e - 1) 0 in
  if Z.even m then sci_leb lo c && sci_leb c hi
  else sci_ltb lo c && sci_ltb c hi.

(** The [k]-digit decimal [s * 10^(n-k)] closest to [m * 2^e] among those
    that read back as it, if any. *)
Definition shortest_at (m e n : Z) (k : Z) : option Z :=
  let num := m * 2 ^ (Z.max e 0) * 10 ^ (Z.max (k - n) 0) in
  let den := 2 ^ (Z.max (- e) 0) * 10 ^ (Z.max (n - k) 0) in
  let s := num / den in
  let r := num mod den in
  let lo_ok := reads_back m e s (n - k) in
  let hi_ok := negb (r =? 0) && reads_back m e (s + 1) (n - k) in
  match lo_ok, hi_ok with
  | true, true =>
      match 2 * r ?= den with
      | Lt => Some s
      | Gt => Some (s + 1)
      | Eq => Some (if Z.even s then s else s + 1)
      end
  | true, false => Some s
  | false, true => Some (s + 1)
  | false, false => None
  end.

(** The digits [s], their count [k] and the decimal exponent [n] of
    Number::toString: [k] as small as possible. *)
Fixpoint shortest (fuel : nat) (m e n : Z) (k : Z) : Z * Z * Z :=
  match fuel with
  | O => (m, k, n)
  | S f =>
      match shortest_at m e n k with
      | Some s => if s =? 10 ^ k then (10 ^ (k - 1), k, n + 1) else (s, k, n)
      | None => shortest f m e n (k + 1)
      end
  end.

(** The layout rules of Number::toString for a positive finite number. *)
Definition layout (s k n : Z) : jsstring :=
  let ds := digits (Z.to_nat k) s [] in
  if (k <=? n) && (n <=? 21) then ds ++ zeros (n - k)
  else if (0 <? n) && (n <=? 21)
       then take (Z.to_nat n) ds ++ lit "." ++ drop (Z.to_nat n) ds
  else if (-6 <? n) && (n <=? 0) then lit "0." ++ zeros (- n) ++ ds
  else
    let ex := (if n - 1 <? 0 then lit "-" else lit "+")
                ++ decimal (Z.abs (n - 1)) in
    if k =? 1 then ds ++ lit "e" ++ ex
    else take 1 ds ++ lit "." ++ drop 1 ds ++ lit "e" ++ ex.

(** [String(x)], [x.toString()] and [`${x}`] on a number. *)
Definition numberToString (x : number) : jsstring :=
  match Prim2SF x with
  | S754_nan => lit "NaN"
  | S754_zero _ => lit "0"
  | S754_infinity s => (if s then lit "-" else []) ++ lit "Infinity"
  | S754_finite sg m e =>
      let n := find_n 640 (decimal_exponent_below (Zpos m) e) (Zpos m) e in
      let '(s, k, n') := shortest 17 (Zpos m) e n 1 in
      (if sg then lit "-" else []) ++ layout s k n'
  end.

(** [x.toFixed(f)] *)
Definition toFixed (x : number) (f : nat) : jsstring :=
  match Prim2SF x with
  | S754_finite sg m e =>
      if sci_leb (Sci 1 0 21) (Sci (Zpos m) e 0) then numberToString x
      else
        let p := 10 ^ Z.of_nat f in
        let n := if 0 <=? e then Zpos m * 2 ^ e * p
                 else (2 * Zpos m * p + 2 ^ (- e)) / 2 ^ (1 - e) in
        let ds := decimal n in
        let ds := zeros (Z.of_nat f + 1 - Z.of_nat (length ds)) ++ ds in
        let a := take (length ds - f) ds in
        let b := drop (length ds - f) ds in
        (if sg then lit "-" else [])
          ++ (match f with O => ds | _ => a ++ lit "." ++ b end)
  | S754_zero _ =>
      match f with O => lit "0" | _ => lit "0." ++ zeros (Z.of_nat f) end
  | _ => numberToString x
  end.

(** [arr.toString()] on an array of numbers, as in [`${encoded.content}`] *)
Definition numbersToString (xs : list number) : jsstring :=
  join (lit ",") (map numberToString xs).

(** ** Loops and typed-array cells *)

(** [for (let i = 0; i < n; i++) body], on the state the body updates. *)
Definition for_loop {S : Type} (n : nat) (body : nat -> S -> S) (s : S) : S :=
  fold_left (fun acc i => body i acc) (seq 0 n) s.

(** A numeric read [xs[i]] used in arithmetic or in a comparison: past the
    end it is [undefined], which converts to NaN. *)
Definition cell (xs : list number) (i : nat) : number :=
  default nan (xs !! i).

(** [Math.cos] is implementation-approximated in ECMA-262, so the tensor
    ring below takes the host's cosine as a parameter.  This reference
    cosine (argument reduction to [0, pi/2], then the Taylor series) is the
    one used to run the model on concrete inputs. *)
Definition floor_div (x y : number) : number :=
  match Math_round (x / y - 0.5)%float with
  | RInt z => Z2F z
  | _ => nan
  end.

Fixpoint cos_series (n : nat) (k : number) (term acc x2 : number) : number :=
  match n with
  | O => acc
  | S n' =>
      let term' := (- term * x2 / ((2 * k + 1) * (2 * k + 2)))%float in
      cos_series n' (k + 1)%float term' (acc + term')%float x2
  end.

Definition cos_ref (x : number) : number :=
  if negb (is_finite x) then nan
  else
    let y := abs x in
    let y := (y - floor_div y (2 * PI) * (2 * PI))%float in
    let y := if (PI <? y)%float then (2 * PI - y)%float else y in
    if (PI / 2 <? y)%float
    then (- cos_series 14 0%float 1%float 1%float ((PI - y) * (PI - y)))%float
    else cos_series 14 0%float 1%float 1%float (y * y)%float.

End JS.

(** ** TernaryVPU (src/unnamed/part_002) *)

Module TernaryVPU.
Import JS.

(** [activationThreshold] is assigned once, by the constructor. *)
Definition activationThreshold : number := 0.33%float.

(** The object: [numVPUs] and the [Int8Array] [vpuStates]. *)
Record t := mk { numVPUs : nat; vpuStates : list Z }.

(** [new TernaryVPU(vpuCount)] *)
Definition new (vpuCount : nat) : t :=
  {| numVPUs := vpuCount; vpuStates := repeat 0 vpuCount |}.

(** The three-way branch of [quantizeToTernary] on one input value. *)
Definition ternary (x : number) : Z :=
  if gt x activationThreshold then 1
  else if lt x (- activationThreshold)%float then -1
  else 0.

Definition quantizeToTernary (input : list number) (s : t) : t :=
  for_loop (Nat.min (length input) (numVPUs s))
    (fun i s =>
       {| numVPUs := numVPUs s;
          vpuStates := <[i := ternary (cell input i)]> (vpuStates s) |})
    s.

(** A cell of the [Int8Array] read into a sum; past the end the read is
    [undefined] and the sum becomes NaN. *)
Definition state_number (states : list Z) (i : nat) : number :=
  match states !! i with
  | Some v => Z2F v
  | None => nan
  end.

Definition computeOutput (s : t) : number :=
  let sum :=
    for_loop (numVPUs s)
      (fun i sum => (sum + state_number (vpuStates s) i)%float) 0%float in
  (sum / nat2F (numVPUs s))%float.

(** [process(input)]: the returned number and the object afterwards. *)
Definition process (input : list number) (s : t) : number * t :=
  let s' := quantizeToTernary input s in
  (computeOutput s', s').

(** What the constructor establishes and every method keeps. *)
Definition wf (s : t) : Prop := length (vpuStates s) = numVPUs s.

(** Every unit holds -1, 0 or +1. *)
Definition ternary_states (s : t) : Prop :=
  Forall (fun v => v = -1 \/ v = 0 \/ v = 1) (vpuStates s).

End TernaryVPU.

(** ** CognitiveLayer (src/unnamed/part_000) *)

Module CognitiveLayer.
Import JS.

(** The argument of [includes] is converted to a string first. *)
Definition to_str (v : strval) : jsstring :=
  match v with
  | Str s => s
  | Undefined => lit "undefined"
  end.

Definition arrow : jsstring := lit "=>".

(** [deductiveReason(premise, inputRules)]: the [for ... of] loop with its
    early [return]. *)
Fixpoint deductiveReason (premise : jsstring) (inputRules : list jsstring)
    : strval :=
  match inputRules with
  | [] => Str premise
  | rule :: rest =>
      if includes premise (to_str (at_index (split rule arrow) 0))
      then at_index (split rule arrow) 1
      else deductiveReason premise rest
  end.

Definition hypotheses : list jsstring :=
  [lit "pattern_match"; lit "rule_application"; lit "knowledge_retrieval"].

(** [obs.length * hyp.length]: a product of two array lengths, exact as a
    number, kept as an integer. *)
Definition scoreHypothesis (obs hyp : jsstring) : Z :=
  Z.of_nat (length obs) * Z.of_nat (length hyp).

(** One turn of the scoring loop on [(bestHypothesis, bestScore)]. *)
Definition abductive_step (obs : jsstring) (best : jsstring * Z)
    (hyp : jsstring) : jsstring * Z :=
  let score := scoreHypothesis obs hyp in
  if snd best <? score then (hyp, score) else best.

Definition abductiveReason (observation : jsstring) : jsstring :=
  fst (fold_left (abductive_step observation) hypotheses
         (default [] (hypotheses !! 0%nat), 0)).

(** A [Map<string, number>]: its entries in insertion order, one per key. *)
Abbreviation strmap := (list (jsstring * Z)).

(** [m.get(k)] *)
Fixpoint map_get (k : jsstring) (m : strmap) : option Z :=
  match m with
  | [] => None
  | (k', v) :: m' => if decide (k' = k) then Some v else map_get k m'
  end.

(** [m.set(k, v)]: a key that is present keeps its place, a new key goes
    last. *)
Fixpoint map_set (k : jsstring) (v : Z) (m : strmap) : strmap :=
  match m with
  | [] => [(k, v)]
  | (k', v') :: m' =>
      if decide (k' = k) then (k, v) :: m' else (k', v') :: map_set k v m'
  end.

(** The two nested [for ... of] loops that fill [patternCounts];
    [patternCounts.get(word) || 0] is 0 for a missing key (and for a count
    of 0). *)
Definition count_word (patternCounts : strmap) (word : jsstring) : strmap :=
  map_set word (default 0 (map_get word patternCounts) + 1) patternCounts.

Definition count_words (observations : list jsstring) : strmap :=
  fold_left
    (fun patternCounts obs =>
       let words := split obs (lit " ") in
       fold_left count_word words patternCounts)
    observations [].

(** One turn of the scan on [(maxCount, mostCommon)]. *)
Definition most_common_step (best : Z * jsstring) (entry : jsstring * Z)
    : Z * jsstring :=
  let '(pattern, count) := entry in
  if fst best <? count then (count, pattern) else best.

Definition inductiveReason (observations : list jsstring) : jsstring :=
  snd (fold_left most_common_step (count_words observations) (0, [])).

End CognitiveLayer.

(** ** ResonanceNetwork (src/ResonanceNetwork.ts) *)

Module ResonanceNetwork.
Import JS.

(** The object: the [Float32Array] [vpuStates] and [syncHistory]
    ([resonanceThreshold] is assigned by the constructor and never read). *)
Record t := mk { vpuStates : list number; syncHistory : list (list number) }.

(** [new ResonanceNetwork(numVPUs)] *)
Definition new (numVPUs : nat) : t :=
  {| vpuStates := repeat 0%float numVPUs; syncHistory := [] |}.

(** The inner loop of [synchronizeVPUs] and the division that follows it. *)
Definition resonance (states pattern : list number) : number :=
  let score :=
    for_loop (Nat.min (length pattern) (length states))
      (fun j score =>
         let distance := Math_abs (cell pattern j - cell states j)%float in
         (score + 1.0 / (1.0 + distance))%float)
      0%float in
  (score / nat2F (length pattern))%float.

(** The loop that copies the best pattern into the [Float32Array]. *)
Definition adopt (pattern states : list number) : list number :=
  for_loop (Nat.min (length pattern) (length states))
    (fun i states => <[i := fround (cell pattern i)]> states)
    states.

Definition synchronizeVPUs (patterns : list (list number)) (s : t)
    : list number * t :=
  let resonanceScores :=
    for_loop (length patterns)
      (fun i scores =>
         scores ++ [resonance (vpuStates s) (default [] (patterns !! i))])
      [] in
  let bestIndex := indexOf resonanceScores (Math_max resonanceScores) in
  let states' :=
    match bestIndex with
    | Some b => adopt (default [] (patterns !! b)) (vpuStates s)
    | None => vpuStates s
    end in
  (resonanceScores,
   {| vpuStates := states';
      syncHistory := syncHistory s ++ [resonanceScores] |}).

(** How a call of [synchronizeVPUs] completes on an engine: it returns the
    scores, or the spread call throws. *)
Inductive completion :=
| Returned (scores : list number)
| RangeError.

(** [synchronizeVPUs] on an engine whose calls take at most
    [argument_limit] arguments.  The scoring loop writes only the local
    array, so a throw of [Math.max(...resonanceScores)] leaves the object
    as it was: neither the state update nor [syncHistory.push] is
    reached. *)
Definition synchronizeVPUs_host (argument_limit : nat)
    (patterns : list (list number)) (s : t) : completion * t :=
  let resonanceScores :=
    for_loop (length patterns)
      (fun i scores =>
         scores ++ [resonance (vpuStates s) (default [] (patterns !! i))])
      [] in
  match Math_max_spread argument_limit resonanceScores with
  | None => (RangeError, s)
  | Some maxResonance =>
      let bestIndex := indexOf resonanceScores maxResonance in
      let states' :=
        match bestIndex with
        | Some b => adopt (default [] (patterns !! b)) (vpuStates s)
        | None => vpuStates s
        end in
      (Returned resonanceScores,
       {| vpuStates := states';
          syncHistory := syncHistory s ++ [resonanceScores] |})
  end.

(** [getVPUState()] *)
Definition getVPUState (s : t) : list number := vpuStates s.

(** [lastSync.reduce((a, b) => a + b, 0)] *)
Definition sum_scores (scores : list number) : number :=
  fold_left (fun a b => (a + b)%float) scores 0%float.

Definition calculateAvgResonance (s : t) : number :=
  match last (syncHistory s) with
  | None => 0%float
  | Some lastSync => (sum_scores lastSync / nat2F (length lastSync))%float
  end.

(** The numeric fields of [getStats()]: [vpuCount], [avgResonance] and
    [historySize]. *)
Definition getStats (s : t) : nat * number * nat :=
  (length (vpuStates s), calculateAvgResonance s, length (syncHistory s)).

End ResonanceNetwork.

(** ** SparseTensorRing (src/ResonanceNetwork.ts, second document) *)

Module SparseTensorRing.
Import JS.

(** The object: [ringDimension], [rankBound] and the [Uint8Array]
    [sparsityMask] ([tensorCores] is created empty and never used). *)
Record t := mk { ringDimension : nat; rankBound : nat; sparsityMask : list Z }.

(** [new SparseTensorRing(ringDim, rank)] *)
Definition new (ringDim rank : nat) : t :=
  {| ringDimension := ringDim; rankBound := rank;
     sparsityMask := repeat 0 ringDim |}.

(** [input.charCodeAt(i)]: NaN past the end. *)
Definition charCodeAt (input : jsstring) (i : nat) : number :=
  match input !! i with
  | Some c => Z2F c
  | None => nan
  end.

Section WithCos.

(** The host's [Math.cos]. *)
Variable cosf : number -> number.

(** [(a * j * Math.PI) / this.ringDimension] *)
Definition angle (s : t) (a j : number) : number :=
  ((a * j * PI) / nat2F (ringDimension s))%float.

Definition encodeToTensor (s : t) (input : jsstring) : list number :=
  for_loop (Nat.min (length input) (ringDimension s))
    (fun i tensor => <[i := fround (charCodeAt input i / 255.0)%float]> tensor)
    (repeat 0%float (ringDimension s)).

Definition tensorDecomposition (s : t) (tensor : list number) : list number :=
  for_loop (rankBound s)
    (fun i compressed =>
       let sum :=
         for_loop (length tensor)
           (fun j sum =>
              (sum + cell tensor j * cosf (angle s (nat2F i) (nat2F j)))%float)
           0%float in
       <[i := fround (sum / nat2F (length tensor))%float]> compressed)
    (repeat 0%float (rankBound s)).

(** [extractSparse]: the pairs pushed to [sparse], and the mask afterwards. *)
Definition extractSparse (s : t) (decomposed : list number)
    : list number * t :=
  let threshold := 0.01%float in
  let '(sparse, mask) :=
    for_loop (length decomposed)
      (fun i '(sparse, mask) =>
         if gt (Math_abs (cell decomposed i)) threshold
         then (sparse ++ [nat2F i; cell decomposed i], <[i := 1]> mask)
         else (sparse, mask))
      ([], sparsityMask s) in
  (sparse,
   {| ringDimension := ringDimension s; rankBound := rankBound s;
      sparsityMask := mask |}).

(** [reconstructTensor]: the outer loop advances by two, so its turn [k]
    reads [sparse[2k]] and [sparse[2k+1]]. *)
Definition reconstructTensor (s : t) (sparse : list number) : list number :=
  for_loop (Nat.div2 (S (length sparse)))
    (fun k reconstructed =>
       let index := cell sparse (2 * k) in
       let value := cell sparse (2 * k + 1) in
       for_loop (ringDimension s)
         (fun j reconstructed =>
            let turn := (value * cosf (angle s index (nat2F j)))%float in
            <[j := fround (cell reconstructed j + turn)%float]> reconstructed)
         reconstructed)
    (repeat 0%float (ringDimension s)).

(** The code [Math.round(tensor[i] * 255)] of position [i]. *)
Definition charCode (tensor : list number) (i : nat) : rounded :=
  Math_round (cell tensor i * 255)%float.

(** [String.fromCharCode(c)] appends the code unit [c] modulo 2^16. *)
Definition decodeFromTensor (tensor : list number) : jsstring :=
  for_loop (length tensor)
    (fun i result =>
       match charCode tensor i with
       | RInt c =>
           if (0 <? c) && (c <? 256) then result ++ [c mod 65536] else result
       | _ => result
       end)
    [].

Definition compress (input : jsstring) (s : t) : list number * t :=
  let encoded := encodeToTensor s input in
  let decomposed := tensorDecomposition s encoded in
  extractSparse s decomposed.

Definition decompress (sparse : list number) (s : t) : jsstring :=
  let reconstructed := reconstructTensor s sparse in
  decodeFromTensor reconstructed.

End WithCos.

(** [Array.from(this.sparsityMask).filter(x => x === 1).length] *)
Definition activeIndices (s : t) : nat :=
  length (filter (fun x => x = 1) (sparsityMask s)).

(** [getStats().compressionRatio]:
    [(ringDimension / Math.max(activeIndices, 1)).toFixed(2) + 'x']. *)
Definition compressionRatio (s : t) : jsstring :=
  toFixed
    (nat2F (ringDimension s) / nat2F (Nat.max (activeIndices s) 1))%float 2
    ++ lit "x".

(** [getStats().sparsity]: [(1 - activeIndices / ringDimension) * 100]. *)
Definition sparsity (s : t) : number :=
  ((1 - nat2F (activeIndices s) / nat2F (ringDimension s)) * 100)%float.

End SparseTensorRing.

(** ** HybridCore (src/unnamed/part_001) *)

Module HybridCore.
Import JS.

(** The object: one instance of each stage and the latency history
    ([CognitiveLayer] has no state that its methods read or write). *)
Record t := mk {
  tensorRing : SparseTensorRing.t;
  ternaryVPU : TernaryVPU.t;
  resonance : ResonanceNetwork.t;
  processingHistory : list number
}.

(** [new HybridCore()] *)
Definition new : t :=
  {| tensorRing := SparseTensorRing.new 32 4;
     ternaryVPU := TernaryVPU.new 52;
     resonance := ResonanceNetwork.new 52;
     processingHistory := [] |}.

Section WithHost.

(** The host's [Math.cos]. *)
Variable cosf : number -> number.

(** [process(input)].  [processingTime] is the difference of the two
    [performance.now()] readings of the call. *)
Definition process (processingTime : number) (input : jsstring) (c : t)
    : strval * t :=
  let '(compressed, ring') :=
    SparseTensorRing.compress cosf input (tensorRing c) in
  let '(vpuOutput, vpu') := TernaryVPU.process compressed (ternaryVPU c) in
  let reasoning :=
    CognitiveLayer.deductiveReason (numberToString vpuOutput)
      [lit "input=>processed"] in
  let patterns := [[vpuOutput]] in
  let '(synced, res') :=
    ResonanceNetwork.synchronizeVPUs patterns (resonance c) in
  (reasoning,
   {| tensorRing := ring'; ternaryVPU := vpu'; resonance := res';
      processingHistory := processingHistory c ++ [processingTime] |}).

End WithHost.

(** What the constructor establishes and [process] keeps. *)
Definition wf (c : t) : Prop :=
  TernaryVPU.numVPUs (ternaryVPU c) = 52%nat
  /\ TernaryVPU.wf (ternaryVPU c)
  /\ TernaryVPU.ternary_states (ternaryVPU c).

(** [getStatus().totalProcessed] *)
Definition totalProcessed (c : t) : nat := length (processingHistory c).

End HybridCore.

(** ** NeuralModeController (src/NeuralModeController.ts) *)

Module NeuralModeController.
Import JS.

Inductive NeuralMode := PURE_SLLM | CONSCIOUS | TEMPORAL | HYBRID | SPIKING.

(** The string value of each member of the enum. *)
Definition mode_string (m : NeuralMode) : jsstring :=
  match m with
  | PURE_SLLM => lit "pure_sllm"
  | CONSCIOUS => lit "conscious"
  | TEMPORAL => lit "temporal"
  | HYBRID => lit "hybrid"
  | SPIKING => lit "spiking"
  end.

(** The object: [currentMode] and [consciousnessLevel] ([modeConfigs] is
    a constant table that [process] reads into a local it never uses). *)
Record t := mk { currentMode : NeuralMode; consciousnessLevel : number }.

(** [new NeuralModeController()] *)
Definition new : t :=
  {| currentMode := PURE_SLLM; consciousnessLevel := 0%float |}.

(** [setMode(mode)] (the [console.log] line is not part of the state). *)
Definition setMode (mode : NeuralMode) (s : t) : t :=
  {| currentMode := mode; consciousnessLevel := consciousnessLevel s |}.

(** [resetConsciousness()] *)
Definition resetConsciousness (s : t) : t :=
  {| currentMode := currentMode s; consciousnessLevel := 0%float |}.

(** The object built by [applyQualiaEncoding]. *)
Record Qualia := mkQualia { content : list number; qualia : number * number }.

(** The optional [context] argument: an object whose [memoryState] may be
    missing. *)
Record Context := mkContext { ctx_memoryState : option (list jsstring) }.

(** The object [process] resolves to; a field that the active mode does not
    set is [None]. *)
Record Result := mkResult {
  output : jsstring;
  mode : option NeuralMode;
  res_consciousnessLevel : option number;
  qualiaState : option Qualia;
  introspection : option jsstring;
  memoryState : option (list jsstring);
  anticipation : option jsstring;
  fullSynthesis : option bool
}.

Definition processPureSLLM (input : jsstring) : jsstring := input.

(** [input.split('').map(c => c.charCodeAt(0) / 255)] *)
Definition applyQualiaEncoding (input : jsstring) : Qualia :=
  {| content := map (fun c => (Z2F c / 255)%float) input;
     qualia := (0%float, 0%float) |}.

Definition calculateIntrospectionGate (encoded : Qualia) : number := 0.5%float.

Definition projectAwareness (encoded : Qualia) : Qualia := encoded.

Definition applyMetaCognitiveAttention (encoded : Qualia) : jsstring :=
  let introspectionGate := calculateIntrospectionGate encoded in
  let awarenessProjection := projectAwareness encoded in
  numbersToString (content encoded)
    ++ lit " (introspection: " ++ numberToString introspectionGate ++ lit ")".

Definition updateConsciousnessLevel (s : t) : t :=
  {| currentMode := currentMode s;
     consciousnessLevel :=
       Math_min 1.0%float (consciousnessLevel s + 0.01)%float |}.

Definition generateIntrospection (s : t) : jsstring :=
  lit "I am processing in " ++ mode_string (currentMode s)
    ++ lit " mode with consciousness level "
    ++ toFixed (consciousnessLevel s) 3.

Definition processConscious (input : jsstring) (s : t) : Result * t :=
  let qualiaEncoded := applyQualiaEncoding input in
  let attentionOutput := applyMetaCognitiveAttention qualiaEncoded in
  let s' := updateConsciousnessLevel s in
  ({| output := attentionOutput;
      mode := None;
      res_consciousnessLevel := Some (consciousnessLevel s');
      qualiaState := Some qualiaEncoded;
      introspection := Some (generateIntrospection s');
      memoryState := None;
      anticipation := None;
      fullSynthesis := None |}, s').

Definition recallMemory (memory : list jsstring) : jsstring :=
  join (lit " ") memory.

(** The template [`${recalled} → ${current}`]; the arrow is U+2192. *)
Definition consolidateMemory (current recalled : jsstring) : jsstring :=
  recalled ++ [32; 8594; 32] ++ current.

Definition applyTemporalProcessing (input : jsstring) (memory : list jsstring)
    : jsstring :=
  let recalled := recallMemory memory in
  let consolidated := consolidateMemory input recalled in
  consolidated.

Definition generateAnticipation (out : jsstring) : jsstring :=
  lit "anticipated: " ++ slice_last 10 out.

(** [context?.memoryState || []] *)
Definition context_memory (context : option Context) : list jsstring :=
  match context with
  | Some c => default [] (ctx_memoryState c)
  | None => []
  end.

Definition processTemporal (input : jsstring) (context : option Context)
    : Result :=
  let memoryState := context_memory context in
  let out := applyTemporalProcessing input memoryState in
  let anticipation := generateAnticipation out in
  {| output := out;
     mode := None;
     res_consciousnessLevel := None;
     qualiaState := None;
     introspection := None;
     memoryState := Some (memoryState ++ [out]);
     anticipation := Some anticipation;
     fullSynthesis := None |}.

Definition processHybrid (input : jsstring) (context : option Context) (s : t)
    : Result * t :=
  let '(conscious, s') := processConscious input s in
  let temporal := processTemporal (output conscious) context in
  ({| output := output temporal;
      mode := None;
      res_consciousnessLevel := Some (consciousnessLevel s');
      qualiaState := qualiaState conscious;
      introspection := introspection conscious;
      memoryState := memoryState temporal;
      anticipation := anticipation temporal;
      fullSynthesis := Some true |}, s').

Definition convertToSpikes (input : jsstring) : list Z :=
  map (fun c => if 127 <? c then 1 else -1) input.

Definition processSpikes (spikes : list Z) : list Z :=
  map (fun s => if s =? 1 then 1 else if s =? -1 then -1 else 0) spikes.

Definition spikesToOutput (spikes : list Z) : jsstring :=
  concat (map (fun s => if s =? 1 then lit "1"
                        else if s =? -1 then lit "0" else lit "x") spikes).

Definition processSpiking (input : jsstring) : jsstring :=
  let spikes := convertToSpikes input in
  let processed := processSpikes spikes in
  spikesToOutput processed.

(** The object [process] starts from in the modes that only set [output]. *)
Definition initial_result (s : t) (out : jsstring) : Result :=
  {| output := out;
     mode := Some (currentMode s);
     res_consciousnessLevel := Some (consciousnessLevel s);
     qualiaState := None;
     introspection := None;
     memoryState := None;
     anticipation := None;
     fullSynthesis := None |}.

(** [process(input, context)] *)
Definition process (input : jsstring) (context : option Context) (s : t)
    : Result * t :=
  match currentMode s with
  | PURE_SLLM => (initial_result s (processPureSLLM input), s)
  | CONSCIOUS => processConscious input s
  | TEMPORAL => (processTemporal input context, s)
  | HYBRID => processHybrid input context s
  | SPIKING => (initial_result s (processSpiking input), s)
  end.

(** The states a controller can be in: those the constructor and the
    public methods produce. *)
Inductive reachable : t -> Prop :=
| reach_new : reachable new
| reach_setMode m s : reachable s -> reachable (setMode m s)
| reach_reset s : reachable s -> reachable (resetConsciousness s)
| reach_process input context s :
    reachable s -> reachable (snd (process input context s)).

(** The level after [k] tracked calls since the last reset. *)
Fixpoint level_after (k : nat) : number :=
  match k with
  | O => 0%float
  | S k' => Math_min 1.0%float (level_after k' + 0.01)%float
  end.

(** [k] calls of [process] on the same input, without context. *)
Fixpoint process_times (k : nat) (input : jsstring) (s : t) : t :=
  match k with
  | O => s
  | S k' => snd (process input None (process_times k' input s))
  end.

(** [NeuralModeConfig] *)
Record NeuralModeConfig := mkConfig {
  useQualia : bool;
  useMetaCognitive : bool;
  useTemporal : bool;
  useConsciousnessTracking : bool;
  useSpiking : bool;
  gpuRequired : bool;
  expectedLatency : jsstring;
  memoryFootprint : jsstring
}.

(** The table built by [initializeModeConfigs()], as the lookup
    [modeConfigs.get(mode)]. *)
Definition modeConfigs (m : NeuralMode) : NeuralModeConfig :=
  match m with
  | PURE_SLLM =>
      mkConfig false false false false false false
        (lit "<50ms") (lit "25-35MB")
  | CONSCIOUS =>
      mkConfig true true false true false false
        (lit "100-150ms") (lit "50-75MB")
  | TEMPORAL =>
      mkConfig false false true false false false
        (lit "75-100ms") (lit "40-60MB")
  | HYBRID =>
      mkConfig true true true true false false
        (lit "150-250ms") (lit "100-150MB")
  | SPIKING =>
      mkConfig false false false false true false
        (lit "30-50ms") (lit "15-25MB")
  end.

(** [getModeConfig()] *)
Definition getModeConfig (s : t) : NeuralModeConfig :=
  modeConfigs (currentMode s).

End NeuralModeController.

(** ** The specification's notions *)

Module Spec.
Import JS.

(** [sub] occurs in [s]. *)
Definition substring (sub s : jsstring) : Prop :=
  exists pre post, s = pre ++ sub ++ post.

(** The part of [s] before the first occurrence of [sep] (all of [s] when
    there is none): the antecedent of a rule when [sep] is [=>]. *)
Fixpoint before_first (sep s : jsstring) : jsstring :=
  match s with
  | [] => []
  | c :: s' => if prefixb sep s then [] else c :: before_first sep s'
  end.

(** The arithmetic mean of the unit states, summed from the left. *)
Definition arithmetic_mean (states : list Z) : number :=
  (fold_left (fun sum v => (sum + Z2F v)%float) states 0%float
     / nat2F (length states))%float.

(** The character a reconstructed value contributes: the code it rounds
    to when that is between 1 and 255, and none otherwise. *)
Definition emitted (x : number) : option Z :=
  match Math_round (x * 255)%float with
  | RInt c => if (1 <=? c) && (c <=? 255) then Some c else None
  | _ => None
  end.

(** The round trip through [ring] reproduces [t] up to rounding: whenever
    the 0.01 threshold removed none of the [rankBound] coefficients, the
    code reconstructed at each position of [t] is within 1 of the
    original. *)
Definition reproduces (cosf : number -> number) (ring : SparseTensorRing.t)
    (t : jsstring) : Prop :=
  let sparse := fst (SparseTensorRing.compress cosf t ring) in
  length sparse = (2 * SparseTensorRing.rankBound ring)%nat ->
  forall i c, t !! i = Some c ->
    exists c',
      SparseTensorRing.charCode
        (SparseTensorRing.reconstructTensor cosf ring sparse) i = RInt c'
      /\ Z.abs (c' - c) <= 1.

(** What the tensor ring needs of the host's cosine: ECMA-262 fixes
    [Math.cos(0) = 1], and the cosine of each angle the ring forms is a
    finite number. *)
Definition host_cos (cosf : number -> number) (ring : SparseTensorRing.t)
    : Prop :=
  cosf 0%float = 1%float
  /\ forall i j, (i < SparseTensorRing.rankBound ring)%nat ->
       (j < SparseTensorRing.ringDimension ring)%nat ->
       is_finite (cosf (SparseTensorRing.angle ring (nat2F i) (nat2F j)))
       = true.

(** The text "z" in the default ring: the value its code 122 is stored as,
    and the coefficient each of the four projections of it yields. *)
Definition z_signal : number := fround (Z2F 122 / 255)%float.
Definition z_coefficient : number := fround (z_signal / nat2F 32)%float.

(** The tokens of all the observations, in reading order. *)
Definition tokens (observations : list jsstring) : list jsstring :=
  concat (map (fun obs => split obs (lit " ")) observations).

(** How many times [w] occurs among [ws]. *)
Definition occurrences (w : jsstring) (ws : list jsstring) : Z :=
  Z.of_nat (length (filter (fun x => x = w) ws)).

(** The state of a quantizer that was constructed with [n] units and then
    processed [inputs] in order. *)
Definition quantizer_after (n : nat) (inputs : list (list number))
    : TernaryVPU.t :=
  fold_left (fun s input => snd (TernaryVPU.process input s)) inputs
    (TernaryVPU.new n).

(** The state of a tensor ring that was constructed with the given
    dimensions and then compressed [texts] in order. *)
Definition ring_after (cosf : number -> number) (ringDim rank : nat)
    (texts : list jsstring) : SparseTensorRing.t :=
  fold_left (fun s text => snd (SparseTensorRing.compress cosf text s)) texts
    (SparseTensorRing.new ringDim rank).

(** The state of an orchestrator that was constructed and then processed
    [calls] in order, each call given as its measured time and its input. *)
Definition core_after (cosf : number -> number)
    (calls : list (number * jsstring)) : HybridCore.t :=
  fold_left
    (fun c call => snd (HybridCore.process cosf (fst call) (snd call) c))
    calls HybridCore.new.

(** The sum of the unit states, as an integer. *)
Definition unit_sum (states : list Z) : Z := fold_left Z.add states 0.

End Spec.

(** * Properties *)

Import JS.

(** ** The runtime on known values *)

Example fround_tenth : fround 0.1%float = 0.10000000149011612%float.
Proof. vm_compute. reflexivity. Qed.

Example round_ties_up :
  Math_round 2.5%float = RInt 3
  /\ Math_round (-2.5)%float = RInt (-2)
  /\ Math_round 0.49999999999999994%float = RInt 0
  /\ Math_round 15.25%float = RInt 15.
Proof. repeat split. Qed.

Example print_numbers :
  numberToString 0.5%float = lit "0.5"
  /\ numberToString (Z2F 3 / Z2F 52)%float = lit "0.057692307692307696"
  /\ numberToString (Z2F 120 / 255)%float = lit "0.47058823529411764"
  /\ numberToString 1e21%float = lit "1e+21"
  /\ numberToString 1e-7%float = lit "1e-7"
  /\ numberToString (-0.25)%float = lit "-0.25"
  /\ numberToString 100%float = lit "100".
Proof. vm_compute. repeat split. Qed.

Example fixed_three :
  toFixed 0.01%float 3 = lit "0.010"
  /\ toFixed 0.0625%float 3 = lit "0.063"
  /\ toFixed 1%float 3 = lit "1.000".
Proof. vm_compute. repeat split. Qed.

Example split_rule :
  split (lit "input=>processed") (lit "=>") = [lit "input"; lit "processed"]
  /\ split (lit "a=>b=>=>") (lit "=>") = [lit "a"; lit "b"; []; []]
  /\ split (lit "abc") (lit "=>") = [lit "abc"].
Proof. repeat split. Qed.

Example slice_and_join :
  slice_last 10 (lit "introspection: 0.5)") = lit "tion: 0.5)"
  /\ slice_last 10 (lit "abc") = lit "abc"
  /\ join (lit " ") [lit "a"; lit "b"] = lit "a b".
Proof. repeat split. Qed.

(** ** Loops *)

Lemma for_loop_0 {S : Type} (body : nat -> S -> S) (s : S) :
  for_loop 0 body s = s.
Proof. reflexivity. Qed.

Lemma for_loop_S {S : Type} (n : nat) (body : nat -> S -> S) (s : S) :
  for_loop (Datatypes.S n) body s = body n (for_loop n body s).
Proof.
  unfold for_loop. rewrite seq_S, fold_left_app. reflexivity.
Qed.

(** A loop whose turn [i] only writes cell [i] of an array: the cells below
    the bound hold what was written, the others are untouched. *)
Lemma write_loop {A : Type} (f : nat -> A) (n : nat) (l : list A) :
  let l' := for_loop n (fun i l => <[i := f i]> l) l in
  length l' = length l
  /\ (forall i, (i < n)%nat -> (i < length l)%nat -> l' !! i = Some (f i))
  /\ (forall i, (n <= i)%nat -> l' !! i = l !! i).
Proof.
  induction n as [|n IH]; cbn zeta.
  - rewrite for_loop_0. repeat split; intros; try lia; reflexivity.
  - rewrite for_loop_S. destruct IH as (Hlen & Hin & Hout).
    repeat split.
    + rewrite length_insert. exact Hlen.
    + intros i Hi Hl. destruct (decide (i = n)) as [->|Hne].
      * apply list_lookup_insert_eq. lia.
      * rewrite list_lookup_insert_ne by congruence. apply Hin; lia.
    + intros i Hi. rewrite list_lookup_insert_ne by lia. apply Hout. lia.
Qed.

(** A loop whose turn [j] rewrites cell [j] from its own previous value. *)
Lemma update_loop {A : Type} (f : nat -> A -> A) (d : A) (n : nat)
    (l : list A) :
  let l' := for_loop n (fun j l => <[j := f j (default d (l !! j))]> l) l in
  length l' = length l
  /\ (forall j, (j < n)%nat -> (j < length l)%nat ->
        l' !! j = Some (f j (default d (l !! j))))
  /\ (forall j, (n <= j)%nat -> l' !! j = l !! j).
Proof.
  induction n as [|n IH]; cbn zeta.
  - rewrite for_loop_0. repeat split; intros; try lia; reflexivity.
  - rewrite for_loop_S. destruct IH as (Hlen & Hin & Hout).
    repeat split.
    + rewrite length_insert. exact Hlen.
    + intros j Hj Hl. destruct (decide (j = n)) as [->|Hne].
      * rewrite list_lookup_insert_eq by lia. rewrite Hout by lia. reflexivity.
      * rewrite list_lookup_insert_ne by congruence. apply Hin; lia.
    + intros j Hj. rewrite list_lookup_insert_ne by lia. apply Hout. lia.
Qed.

(** Two bodies that agree below the bound run the same loop. *)
Lemma for_loop_ext {S : Type} (n : nat) (b1 b2 : nat -> S -> S) (s : S) :
  (forall i acc, (i < n)%nat -> b1 i acc = b2 i acc) ->
  for_loop n b1 s = for_loop n b2 s.
Proof.
  induction n as [|n IH]; intros Hb.
  - reflexivity.
  - rewrite !for_loop_S, IH by (intros; apply Hb; lia). apply Hb. lia.
Qed.

(** A loop that reads the cells of an array in order is a left fold. *)
Lemma read_loop {A S : Type} (g : S -> option A -> S) (l : list A) (s : S) :
  for_loop (length l) (fun i acc => g acc (l !! i)) s
  = fold_left (fun acc x => g acc (Some x)) l s.
Proof.
  induction l as [|x l IH] using rev_ind.
  - reflexivity.
  - rewrite length_app, Nat.add_1_r, for_loop_S, fold_left_app. cbn.
    rewrite list_lookup_middle by reflexivity. f_equal.
    rewrite <- IH. apply for_loop_ext. intros i acc Hi.
    rewrite lookup_app_l by exact Hi. reflexivity.
Qed.

(** ** Numbers *)

(** A value above the activation threshold is not below its negation. *)
Lemma above_not_below (x : number) :
  gt x TernaryVPU.activationThreshold = true ->
  lt x (- TernaryVPU.activationThreshold)%float = false.
Proof.
  unfold gt, lt. rewrite !FloatAxioms.ltb_spec.
  let c := eval vm_compute in (Prim2SF TernaryVPU.activationThreshold) in
  change (Prim2SF TernaryVPU.activationThreshold) with c.
  let c := eval vm_compute in (Prim2SF (- TernaryVPU.activationThreshold)) in
  change (Prim2SF (- TernaryVPU.activationThreshold)) with c.
  unfold SFltb.
  destruct (Prim2SF x) as [s|s| |s m e]; try destruct s; intros H;
    first [reflexivity | discriminate H].
Qed.

(** The number of binary digits, as the float specification counts them. *)
Lemma digits2_size (p : positive) : digits2_pos p = Pos.size p.
Proof. induction p; cbn; congruence. Qed.

(** Shifting a mantissa left by [d] adds [d] digits. *)
Lemma digits2_shift (p d : positive) :
  digits2_pos (Pos.iter xO p d) = (digits2_pos p + d)%positive.
Proof.
  induction d using Pos.peano_ind.
  - cbn. lia.
  - rewrite Pos.iter_succ. cbn. rewrite IHd. lia.
Qed.

(** A mantissa of exactly 53 digits is not rounded. *)
Lemma round_aux_exact (mz : positive) (ez : Z) :
  Zpos (digits2_pos mz) = 53 -> -1074 <= ez <= 971 ->
  binary_round_aux prec emax false (Zpos mz) ez loc_Exact
  = S754_finite false mz ez.
Proof.
  intros Hd He.
  assert (Hshift : forall l,
    shr_fexp prec emax (Zpos mz) ez l
    = (shr_record_of_loc (Zpos mz) l, ez)).
  { intros l. unfold shr_fexp, Zdigits2. rewrite Hd.
    replace (fexp prec emax (53 + ez) - ez) with 0
      by (unfold fexp, SpecFloat.emin, prec, emax; lia).
    reflexivity. }
  unfold binary_round_aux. rewrite Hshift. cbn -[shr_fexp].
  rewrite Hshift. cbn -[Z.leb Z.sub].
  replace (ez <=? emax - prec) with true; [reflexivity|].
  symmetry. apply Z.leb_le. unfold emax, prec. lia.
Qed.

(** A positive integer below 2^53 converts to a positive finite number. *)
Lemma normalize_small (p : positive) :
  Zpos p < 2 ^ 53 ->
  exists m e,
    binary_normalize prec emax (Zpos p) 0 false = S754_finite false m e.
Proof.
  intros Hp.
  assert (Hd : (Zpos (digits2_pos p) <= 53)).
  { rewrite digits2_size.
    pose proof (Pos.size_le p) as Hs.
    destruct (Z.le_gt_cases (Zpos (Pos.size p)) 53) as [|Hgt]; [assumption|].
    exfalso.
    assert (2 ^ 54 <= 2 ^ Zpos (Pos.size p)) by (apply Z.pow_le_mono_r; lia).
    assert (H2 : (2 ^ Zpos (Pos.size p) = Zpos (2 ^ Pos.size p)))
      by (rewrite Pos2Z.inj_pow; reflexivity).
    lia. }
  unfold binary_normalize, binary_round, shl_align.
  replace (fexp prec emax (Zpos (digits2_pos p) + 0))
    with (Zpos (digits2_pos p) - 53)
    by (unfold fexp, SpecFloat.emin, prec, emax; lia).
  rewrite Z.sub_0_r.
  destruct (Zpos (digits2_pos p) - 53) as [|k|k] eqn:Hk; try lia.
  - exists p, 0. apply round_aux_exact; lia.
  - exists (Pos.iter xO p k), (Zneg k). apply round_aux_exact; [|lia].
    rewrite digits2_shift. lia.
Qed.

(** Zero divided by a positive array length is zero. *)
Lemma zero_div_count (n : nat) :
  (1 <= n)%nat -> Z.of_nat n < 2 ^ 53 -> (0 / nat2F n)%float = 0%float.
Proof.
  intros Hn Hb. unfold nat2F, Z2F.
  destruct (Z.of_nat n) as [|p|p] eqn:Hz; try lia.
  apply Prim2SF_inj. rewrite FloatAxioms.div_spec, of_uint63_spec.
  rewrite Uint63.of_Z_spec, Z.mod_small
    by (change Uint63.wB with 9223372036854775808;
        change (2 ^ 53) with 9007199254740992 in Hb; lia).
  destruct (normalize_small p Hb) as (m & e & ->). reflexivity.
Qed.

(** The bitwise comparison of two numbers decides their equality. *)
Lemma float_eqb_eq (x y : number) : PrimFloat.Leibniz.eqb x y = true -> x = y.
Proof. apply FloatAxioms.Leibniz.eqb_spec. Qed.

(** Zero times a finite number is a zero. *)
Lemma zero_times_finite (y : number) :
  is_finite y = true ->
  (0 * y)%float = 0%float \/ (0 * y)%float = (-0)%float.
Proof.
  intros Hy. unfold is_finite in Hy.
  apply negb_true_iff, orb_false_iff in Hy as [Hnan Hinf].
  rewrite <- (SF2Prim_Prim2SF (0 * y)), FloatAxioms.mul_spec.
  change (Prim2SF 0) with (S754_zero false).
  unfold Prim2SF. rewrite Hnan, Hinf.
  destruct (is_zero y).
  - destruct (get_sign y); [right | left]; reflexivity.
  - destruct (Z.frexp y) as [r ex].
    destruct (shr_fexp _ _ _ _ _) as [sh e'].
    destruct (shr_m sh); [left; reflexivity | |left; reflexivity].
    destruct (get_sign y); [right | left]; reflexivity.
Qed.

(** ** TernaryVPU *)

Section TernaryVPUProps.
Import TernaryVPU.

(** The quantizing loop leaves [numVPUs] alone and is a loop of cell writes
    on [vpuStates]. *)
Lemma quantize_loop (input : list number) (n : nat) (s : t) :
  for_loop n
    (fun i s =>
       {| numVPUs := numVPUs s;
          vpuStates := <[i := ternary (cell input i)]> (vpuStates s) |}) s
  = {| numVPUs := numVPUs s;
       vpuStates :=
         for_loop n (fun i l => <[i := ternary (cell input i)]> l)
           (vpuStates s) |}.
Proof.
  induction n as [|n IH].
  - rewrite !for_loop_0. destruct s; reflexivity.
  - rewrite !for_loop_S, IH. reflexivity.
Qed.

Lemma quantize_numVPUs (input : list number) (s : t) :
  numVPUs (quantizeToTernary input s) = numVPUs s.
Proof. unfold quantizeToTernary. rewrite quantize_loop. reflexivity. Qed.

Lemma quantize_wf (input : list number) (s : t) :
  wf s -> wf (quantizeToTernary input s).
Proof.
  unfold wf, quantizeToTernary. rewrite quantize_loop. cbn.
  intros <-. apply write_loop.
Qed.

(** Below [min(input.length, numVPUs)] a unit holds the quantized input. *)
Lemma quantize_written (input : list number) (s : t) (i : nat) :
  wf s -> (i < length input)%nat -> (i < numVPUs s)%nat ->
  vpuStates (quantizeToTernary input s) !! i = Some (ternary (cell input i)).
Proof.
  unfold wf, quantizeToTernary. rewrite quantize_loop. cbn.
  intros Hwf Hi Hn.
  apply (write_loop (fun i => ternary (cell input i))); lia.
Qed.

(** From [min(input.length, numVPUs)] on a unit keeps its state. *)
Lemma quantize_kept (input : list number) (s : t) (i : nat) :
  (Nat.min (length input) (numVPUs s) <= i)%nat ->
  vpuStates (quantizeToTernary input s) !! i = vpuStates s !! i.
Proof.
  unfold quantizeToTernary. rewrite quantize_loop. cbn.
  intros Hi.
  apply (write_loop (fun i => ternary (cell input i))); lia.
Qed.

(** The quantized states are ternary. *)
Lemma ternary_range (x : number) :
  ternary x = -1 \/ ternary x = 0 \/ ternary x = 1.
Proof.
  unfold ternary.
  destruct (gt x activationThreshold); [auto|].
  destruct (lt x (- activationThreshold)%float); auto.
Qed.

Lemma quantize_ternary_states (input : list number) (s : t) :
  ternary_states s -> ternary_states (quantizeToTernary input s).
Proof.
  unfold ternary_states, quantizeToTernary. rewrite quantize_loop. cbn.
  generalize (Nat.min (length input) (numVPUs s)) as n.
  induction n as [|n IH]; intros Hs.
  - exact Hs.
  - rewrite for_loop_S. apply Forall_insert; [auto | apply ternary_range].
Qed.

(** The index loop of [computeOutput] computes the arithmetic mean. *)
Lemma computeOutput_mean (s : t) :
  wf s -> computeOutput s = Spec.arithmetic_mean (vpuStates s).
Proof.
  unfold wf, computeOutput, Spec.arithmetic_mean, state_number. intros <-.
  f_equal.
  exact (read_loop
           (fun sum o =>
              (sum + match o with Some v => Z2F v | None => nan end)%float)
           (vpuStates s) 0%float).
Qed.

Lemma mean_of_zeros (n : nat) :
  fold_left (fun sum v => (sum + Z2F v)%float) (repeat 0 n) 0%float = 0%float.
Proof. induction n as [|n IH]; [reflexivity | exact IH]. Qed.

(** C4. Every input value written to a unit is quantized by the two
    thresholds: the unit becomes +1 when the value is above 0.33, -1 when
    it is below -0.33 and 0 otherwise; the values 0.33 and -0.33 themselves
    give 0. *)
Theorem quantizer_thresholds (s : t) (input : list number) (i : nat)
    (x : number) :
  wf s -> input !! i = Some x -> (i < numVPUs s)%nat ->
  let unit := vpuStates (quantizeToTernary input s) !! i in
  (gt x 0.33%float = true -> unit = Some 1)
  /\ (lt x (-0.33)%float = true -> unit = Some (-1))
  /\ (gt x 0.33%float = false -> lt x (-0.33)%float = false -> unit = Some 0)
  /\ (x = 0.33%float \/ x = (-0.33)%float -> unit = Some 0).
Proof.
  intros Hwf Hx Hi unit.
  assert (Hunit : unit = Some (ternary x)).
  { assert (Hlt : (i < length input)%nat) by (eapply lookup_lt_Some, Hx).
    unfold unit. rewrite (quantize_written input s i Hwf Hlt Hi).
    unfold cell. rewrite Hx. reflexivity. }
  rewrite Hunit. unfold ternary.
  change (PrimFloat.opp activationThreshold) with (-0.33)%float.
  change activationThreshold with 0.33%float.
  repeat split.
  - intros ->. reflexivity.
  - intros Hlt. destruct (gt x 0.33%float) eqn:Hgt; [|rewrite Hlt; reflexivity].
    apply above_not_below in Hgt.
    change (PrimFloat.opp activationThreshold) with (-0.33)%float in Hgt.
    rewrite Hgt in Hlt. discriminate Hlt.
  - intros -> ->. reflexivity.
  - intros [-> | ->]; reflexivity.
Qed.

Lemma quantizer_thresholds_witness :
  wf (new 52)
  /\ [0.5%float] !! 0%nat = Some 0.5%float
  /\ (0 < numVPUs (new 52))%nat
  /\ (gt 0.5%float 0.33%float = true ->
      vpuStates (quantizeToTernary [0.5%float] (new 52)) !! 0%nat = Some 1).
Proof.
  split; [reflexivity|]. split; [reflexivity|]. split; [cbn; lia|].
  apply (quantizer_thresholds (new 52) [0.5%float] 0 0.5%float);
    [reflexivity | reflexivity | cbn; lia].
Defined.

(** C5. When the input is shorter than [vpuCount], the units from the
    input's length on keep their states; on an empty input no unit changes
    and [process] returns the arithmetic mean of the states it found, which
    is 0 on the first call after construction. *)
Theorem short_input_keeps_tail (s : t) (input : list number) :
  wf s -> (length input < numVPUs s)%nat ->
  let out := fst (process input s) in
  let s' := snd (process input s) in
  (forall i, (length input <= i)%nat -> vpuStates s' !! i = vpuStates s !! i)
  /\ (input = [] ->
      vpuStates s' = vpuStates s
      /\ out = Spec.arithmetic_mean (vpuStates s)
      /\ (s = new (numVPUs s) -> Z.of_nat (numVPUs s) < 2 ^ 53 ->
          out = 0%float)).
Proof.
  intros Hwf Hlen out s'. split.
  - intros i Hi. apply quantize_kept. lia.
  - intros ->. subst out s'. unfold process. cbn [fst snd].
    change (quantizeToTernary [] s) with s.
    split; [reflexivity|]. split; [apply computeOutput_mean, Hwf|].
    intros Hnew Hbound. rewrite computeOutput_mean by exact Hwf.
    rewrite Hnew. unfold Spec.arithmetic_mean. cbn [vpuStates new numVPUs].
    rewrite mean_of_zeros, repeat_length.
    apply zero_div_count; [cbn in Hlen; lia | exact Hbound].
Qed.

Lemma short_input_keeps_tail_witness :
  wf (new 52) /\ (length [0.5%float] < numVPUs (new 52))%nat
  /\ forall i, (length [0.5%float] <= i)%nat ->
       vpuStates (snd (process [0.5%float] (new 52))) !! i
       = vpuStates (new 52) !! i.
Proof.
  split; [reflexivity|]. split; [cbn; lia|].
  apply (short_input_keeps_tail (new 52) [0.5%float]); [reflexivity | cbn; lia].
Defined.

End TernaryVPUProps.

(** ** Strings *)

Lemma prefixb_spec (p s : jsstring) :
  prefixb p s = true <-> exists post, s = p ++ post.
Proof.
  revert s. induction p as [|a p IH]; intros s; cbn.
  - split; [exists s; reflexivity | reflexivity].
  - destruct s as [|b s].
    + split; [discriminate | intros [post H]; discriminate H].
    + rewrite andb_true_iff, Z.eqb_eq, IH. split.
      * intros [-> [post ->]]. exists post. reflexivity.
      * intros [post H]. injection H as -> ->. split; [reflexivity|].
        exists post. reflexivity.
Qed.

(** [includes] decides occurrence as a substring. *)
Lemma includes_spec (s sub : jsstring) :
  includes s sub = true <-> Spec.substring sub s.
Proof.
  unfold Spec.substring. induction s as [|c s IH]; cbn.
  - rewrite orb_false_r, prefixb_spec. split.
    + intros [post H]. exists [], post. exact H.
    + intros (pre & post & H). destruct pre; [|discriminate H].
      exists post. exact H.
  - rewrite orb_true_iff, prefixb_spec, IH. split.
    + intros [[post H] | (pre & post & H)].
      * exists [], post. exact H.
      * exists (c :: pre), post. cbn. rewrite H. reflexivity.
    + intros (pre & post & H). destruct pre as [|c' pre].
      * left. exists post. exact H.
      * right. injection H as -> ->. exists pre, post. reflexivity.
Qed.

(** The first piece of a split is the part before the first separator. *)
Lemma split_go_head (sep cur s : jsstring) :
  split_go sep 0 cur s !! 0%nat = Some (rev cur ++ Spec.before_first sep s).
Proof.
  revert cur. induction s as [|c s IH]; intros cur.
  - cbn. rewrite app_nil_r. reflexivity.
  - cbn [split_go Spec.before_first].
    destruct (prefixb sep (c :: s)).
    + cbn. rewrite app_nil_r. reflexivity.
    + rewrite IH. cbn. rewrite <- app_assoc. reflexivity.
Qed.

Lemma split_head (s sep : jsstring) :
  at_index (split s sep) 0 = Str (Spec.before_first sep s).
Proof. unfold at_index, split. rewrite split_go_head. reflexivity. Qed.

(** [before_first sep s] is a prefix of [s] that ends where [s] ends or
    where a separator begins. *)
Lemma before_first_prefix (sep s : jsstring) :
  exists rest,
    s = Spec.before_first sep s ++ rest
    /\ (rest = [] \/ prefixb sep rest = true).
Proof.
  induction s as [|c s (rest & Hs & Hrest)].
  - exists []. split; [reflexivity | left; reflexivity].
  - cbn [Spec.before_first]. destruct (prefixb sep (c :: s)) eqn:Hp.
    + exists (c :: s). split; [reflexivity | right; exact Hp].
    + exists rest. split; [cbn; rewrite <- Hs; reflexivity | exact Hrest].
Qed.

(** No separator occurs inside [before_first sep s]. *)
Lemma before_first_free (sep s : jsstring) :
  sep <> [] -> ~ Spec.substring sep (Spec.before_first sep s).
Proof.
  intros Hsep. induction s as [|c s IH]; intros (pre & post & H).
  - cbn in H. destruct pre; [|discriminate H].
    destruct sep; [congruence | discriminate H].
  - cbn [Spec.before_first] in H. destruct (prefixb sep (c :: s)) eqn:Hp.
    + destruct pre; [|discriminate H].
      destruct sep; [congruence | discriminate H].
    + destruct pre as [|c' pre].
      * destruct (before_first_prefix sep s) as (rest & Hs & _).
        assert (Hpre : prefixb sep (c :: s) = true).
        { apply prefixb_spec. exists (post ++ rest).
          rewrite Hs at 1. rewrite app_comm_cons, H. cbn.
          rewrite <- app_assoc. reflexivity. }
        congruence.
      * injection H as _ H. apply IH. exists pre, post. exact H.
Qed.

(** ** CognitiveLayer *)

Section CognitiveLayerProps.
Import CognitiveLayer.

(** A rule whose antecedent does not occur in the premise is passed over. *)
Lemma deductive_skip (premise rule : jsstring) (rest : list jsstring) :
  ~ Spec.substring (Spec.before_first arrow rule) premise ->
  deductiveReason premise (rule :: rest) = deductiveReason premise rest.
Proof.
  intros Hno. cbn [deductiveReason]. rewrite split_head. cbn [to_str].
  destruct (includes premise (Spec.before_first arrow rule)) eqn:Hinc.
  - apply includes_spec in Hinc. contradiction.
  - reflexivity.
Qed.

(** C6. When no rule's antecedent (the part of the rule before its first
    [=>]) occurs in the premise, [deductiveReason] returns the premise
    itself. *)
Theorem deductive_identity (premise : jsstring) (rules : list jsstring) :
  (forall rule, In rule rules ->
     ~ Spec.substring (Spec.before_first (lit "=>") rule) premise) ->
  deductiveReason premise rules = Str premise.
Proof.
  induction rules as [|rule rules IH]; intros Hno.
  - reflexivity.
  - rewrite deductive_skip by (apply Hno; left; reflexivity).
    apply IH. intros r Hr. apply Hno. right. exact Hr.
Qed.

Lemma deductive_identity_witness :
  (forall rule, In rule [lit "input=>processed"] ->
     ~ Spec.substring (Spec.before_first (lit "=>") rule) (lit "0.5"))
  /\ deductiveReason (lit "0.5") [lit "input=>processed"] = Str (lit "0.5").
Proof.
  assert (H : forall rule, In rule [lit "input=>processed"] ->
     ~ Spec.substring (Spec.before_first (lit "=>") rule) (lit "0.5")).
  { intros rule [<- | []] Hsub. apply includes_spec in Hsub.
    discriminate Hsub. }
  split; [exact H|].
  exact (deductive_identity (lit "0.5") [lit "input=>processed"] H).
Defined.

(** One turn of the scoring loop takes the candidate exactly when its score
    exceeds the running best. *)
Lemma abductive_step_take (obs : jsstring) (best : jsstring * Z)
    (hyp : jsstring) :
  snd best < scoreHypothesis obs hyp ->
  abductive_step obs best hyp = (hyp, scoreHypothesis obs hyp).
Proof.
  intros H. unfold abductive_step.
  destruct (Z.ltb_spec (snd best) (scoreHypothesis obs hyp)); [reflexivity|lia].
Qed.

Lemma abductive_step_keep (obs : jsstring) (best : jsstring * Z)
    (hyp : jsstring) :
  ~ snd best < scoreHypothesis obs hyp ->
  abductive_step obs best hyp = best.
Proof.
  intros H. unfold abductive_step.
  destruct (Z.ltb_spec (snd best) (scoreHypothesis obs hyp)); [lia|reflexivity].
Qed.

Lemma candidate_scores (obs : jsstring) :
  scoreHypothesis obs (lit "pattern_match") = Z.of_nat (length obs) * 13
  /\ scoreHypothesis obs (lit "rule_application") = Z.of_nat (length obs) * 16
  /\ scoreHypothesis obs (lit "knowledge_retrieval")
     = Z.of_nat (length obs) * 19.
Proof. repeat split. Qed.

(** C7. For every observation, [abductiveReason] returns one of the three
    candidates [pattern_match], [rule_application], [knowledge_retrieval],
    scored [length(observation) * length(candidate)]: the returned one has
    the greatest score, strictly above every other candidate's on a
    non-empty observation, where it is [knowledge_retrieval]; when no
    score exceeds the initial running best 0, and so on every empty
    observation, it is the first candidate, [pattern_match]. *)
Theorem abductive_best (observation : jsstring) :
  let candidates :=
    [lit "pattern_match"; lit "rule_application"; lit "knowledge_retrieval"]
  in
  let score (h : jsstring) :=
    Z.of_nat (length observation) * Z.of_nat (length h) in
  let best := abductiveReason observation in
  In best candidates
  /\ (forall h, In h candidates -> score h <= score best)
  /\ (observation <> [] -> forall h, In h candidates -> h <> best ->
        score h < score best)
  /\ (observation <> [] -> best = lit "knowledge_retrieval")
  /\ ((forall h, In h candidates -> ~ 0 < score h) ->
        best = lit "pattern_match")
  /\ (observation = [] -> best = lit "pattern_match").
Proof.
  destruct (candidate_scores observation) as (Hpm & Hra & Hkr).
  unfold scoreHypothesis in Hpm, Hra, Hkr.
  intros candidates score best. subst candidates score best. cbn [In].
  destruct observation as [|c obs].
  - change (abductiveReason []) with (lit "pattern_match").
    repeat split; try reflexivity.
    + left. reflexivity.
    + intros Hne. contradiction.
    + intros Hne. contradiction.
  - set (k := Z.of_nat (length (c :: obs))) in *.
    assert (Hk : 0 < k) by (unfold k; cbn [length]; lia).
    assert (Hbest : abductiveReason (c :: obs) = lit "knowledge_retrieval").
    { unfold abductiveReason, hypotheses. cbn [fold_left].
      rewrite (abductive_step_take _ _ (lit "pattern_match"))
        by (unfold scoreHypothesis; fold k; rewrite Hpm; cbn [snd]; lia).
      rewrite (abductive_step_take _ _ (lit "rule_application"))
        by (unfold scoreHypothesis; fold k; rewrite Hra, Hpm; cbn [snd];
            lia).
      rewrite (abductive_step_take _ _ (lit "knowledge_retrieval"))
        by (unfold scoreHypothesis; fold k; rewrite Hkr, Hra; cbn [snd];
            lia).
      reflexivity. }
    rewrite Hbest, Hkr.
    repeat split.
    + right. right. left. reflexivity.
    + intros h [<- | [<- | [<- | []]]]; lia.
    + intros _ h [<- | [<- | [<- | []]]] Hne; try lia; congruence.
    + intros Hnone. exfalso.
      apply (Hnone (lit "pattern_match")); [left; reflexivity | lia].
    + discriminate.
Qed.

End CognitiveLayerProps.

(** ** ResonanceNetwork *)

Section ResonanceNetworkProps.
Import ResonanceNetwork.

(** On a state that starts with two zeros, the candidates [[1,1]] and
    [[0,0]] score 0.5 and 1, and the second is copied into the state. *)
Lemma synchronize_two_zeros (rest : list number)
    (history : list (list number)) :
  synchronizeVPUs [[1; 1]; [0; 0]]%float
    {| vpuStates := 0%float :: 0%float :: rest; syncHistory := history |}
  = ([0.5; 1]%float,
     {| vpuStates := 0%float :: 0%float :: rest;
        syncHistory := history ++ [[0.5; 1]%float] |}).
Proof. reflexivity. Qed.

(** C8. From a state of at least two units that are all zero, on the
    candidates [[1,1],[0,0]] the second candidate's score is strictly above
    the first's, and afterwards the first two units hold the second
    candidate's values 0 and 0 while every other unit is unchanged. *)
Theorem second_candidate_wins (s : t) :
  Forall (fun x => x = 0%float) (vpuStates s) ->
  (2 <= length (vpuStates s))%nat ->
  let scores := fst (synchronizeVPUs [[1; 1]; [0; 0]]%float s) in
  let s' := snd (synchronizeVPUs [[1; 1]; [0; 0]]%float s) in
  (exists first second,
      scores = [first; second] /\ lt first second = true
      /\ first = 0.5%float /\ second = 1%float)
  /\ vpuStates s' !! 0%nat = Some 0%float
  /\ vpuStates s' !! 1%nat = Some 0%float
  /\ (forall i, (2 <= i)%nat -> vpuStates s' !! i = vpuStates s !! i).
Proof.
  destruct s as [states history]. cbn [vpuStates].
  intros Hzero Hlen.
  destruct states as [|a [|b rest]]; cbn [length] in Hlen; try lia.
  apply Forall_cons in Hzero as [-> Hzero].
  apply Forall_cons in Hzero as [-> _].
  rewrite synchronize_two_zeros. cbn [fst snd vpuStates].
  split; [|repeat split].
  exists 0.5%float, 1%float. repeat split.
Qed.

Lemma second_candidate_wins_witness :
  Forall (fun x => x = 0%float) (vpuStates (new 52))
  /\ (2 <= length (vpuStates (new 52)))%nat
  /\ vpuStates (snd (synchronizeVPUs [[1; 1]; [0; 0]]%float (new 52))) !! 1%nat
     = Some 0%float.
Proof.
  assert (Hz : Forall (fun x => x = 0%float) (vpuStates (new 52))).
  { apply Forall_forall. intros x Hx.
    apply list_elem_of_In, repeat_spec in Hx. exact Hx. }
  assert (Hl : (2 <= length (vpuStates (new 52)))%nat) by (cbn; lia).
  split; [exact Hz|]. split; [exact Hl|].
  exact (proj1 (proj2 (proj2 (second_candidate_wins (new 52) Hz Hl)))).
Defined.

(** With no candidate [Math.max()] is [-Infinity], which [indexOf] does not
    find in the empty score vector. *)
Lemma no_best_index : indexOf [] (Math_max []) = None.
Proof. reflexivity. Qed.

(** C9. On an empty candidate list [synchronizeVPUs] returns an empty
    score vector and leaves every position of the state vector as it was
    (the empty score vector is still appended to the history). *)
Theorem empty_candidates (s : t) :
  let scores := fst (synchronizeVPUs [] s) in
  let s' := snd (synchronizeVPUs [] s) in
  scores = []
  /\ vpuStates s' = vpuStates s
  /\ (forall i, vpuStates s' !! i = vpuStates s !! i)
  /\ syncHistory s' = syncHistory s ++ [[]].
Proof.
  unfold synchronizeVPUs. cbn [length]. rewrite for_loop_0, no_best_index.
  cbn [fst snd vpuStates syncHistory]. repeat split.
Qed.

End ResonanceNetworkProps.

(** ** SparseTensorRing *)

Section SparseTensorRingProps.
Import SparseTensorRing.

Variable cosf : number -> number.

(** A loop of writes into an array keeps its length. *)
Lemma for_loop_length {A : Type} (n : nat) (body : nat -> list A -> list A)
    (l : list A) :
  (forall i l, length (body i l) = length l) ->
  length (for_loop n body l) = length l.
Proof.
  intros Hbody. induction n as [|n IH].
  - reflexivity.
  - rewrite for_loop_S, Hbody. exact IH.
Qed.

Lemma reconstruct_length (s : t) (sparse : list number) :
  length (reconstructTensor cosf s sparse) = ringDimension s.
Proof.
  unfold reconstructTensor. rewrite for_loop_length.
  - apply repeat_length.
  - intros k l. apply for_loop_length. intros j l'. apply length_insert.
Qed.

(** The character appended for one reconstructed value. *)
Lemma decode_step (x : number) (result : jsstring) :
  match Math_round (x * 255)%float with
  | RInt c => if (0 <? c) && (c <? 256) then result ++ [c mod 65536] else result
  | _ => result
  end = result ++ option_list (Spec.emitted x).
Proof.
  unfold Spec.emitted.
  destruct (Math_round (x * 255)%float) as [| |c];
    try (cbn; rewrite app_nil_r; reflexivity).
  destruct (Z.ltb_spec 0 c), (Z.ltb_spec c 256),
    (Z.leb_spec 1 c), (Z.leb_spec c 255);
    cbn; try lia; try (rewrite app_nil_r; reflexivity).
  rewrite Z.mod_small by lia. reflexivity.
Qed.

(** The decoding loop as a fold over the tensor. *)
Lemma decode_fold (tensor : list number) (acc : jsstring) :
  fold_left
    (fun result x =>
       match Math_round (x * 255)%float with
       | RInt c =>
           if (0 <? c) && (c <? 256) then result ++ [c mod 65536] else result
       | _ => result
       end) tensor acc
  = acc ++ omap Spec.emitted tensor.
Proof.
  revert acc. induction tensor as [|x tensor IH]; intros acc.
  - cbn. rewrite app_nil_r. reflexivity.
  - cbn [fold_left]. rewrite IH, decode_step. cbn [omap list_omap].
    destruct (Spec.emitted x); cbn; rewrite <- ?app_assoc; reflexivity.
Qed.

(** [decodeFromTensor] keeps, in order, the codes that are emitted. *)
Lemma decode_filter (tensor : list number) :
  decodeFromTensor tensor = omap Spec.emitted tensor.
Proof.
  unfold decodeFromTensor, charCode, cell.
  etransitivity; [|exact (decode_fold tensor [])].
  exact (read_loop
           (fun result o =>
              match Math_round (default nan o * 255)%float with
              | RInt c =>
                  if (0 <? c) && (c <? 256)
                  then result ++ [c mod 65536] else result
              | _ => result
              end) tensor []).
Qed.

Lemma omap_length_le {A B : Type} (f : A -> option B) (l : list A) :
  (length (omap f l) <= length l)%nat.
Proof.
  induction l as [|x l IH]; cbn; [lia|].
  destruct (f x); cbn; lia.
Qed.

Lemma emitted_range (x : number) (c : Z) :
  Spec.emitted x = Some c -> 1 <= c <= 255.
Proof.
  unfold Spec.emitted. destruct (Math_round (x * 255)%float) as [| |z];
    try discriminate.
  destruct (Z.leb_spec 1 z), (Z.leb_spec z 255); cbn; try discriminate.
  intros [= <-]. lia.
Qed.

(** C1 (amended). For every text, [decompress(compress(t))] consists, in
    order, of the codes the reconstructed values round to, those outside
    1..255 (and NaN or infinite ones) dropped; so every character of the
    result has a code between 1 and 255, and there are at most
    [ringDimension] of them. *)
Theorem roundtrip_codes_in_range (s : t) (text : jsstring) :
  let sparse := fst (compress cosf text s) in
  let s' := snd (compress cosf text s) in
  let out := decompress cosf sparse s' in
  out = omap Spec.emitted (reconstructTensor cosf s' sparse)
  /\ Forall (fun c => 1 <= c <= 255) out
  /\ (length out <= ringDimension s)%nat.
Proof.
  intros sparse s' out.
  assert (Hout : out = omap Spec.emitted (reconstructTensor cosf s' sparse))
    by apply decode_filter.
  split; [exact Hout|]. split.
  - rewrite Hout. apply Forall_forall. intros c Hc.
    apply list_elem_of_omap in Hc as (x & _ & Hx).
    exact (emitted_range x c Hx).
  - rewrite Hout.
    assert (Hring : ringDimension s' = ringDimension s).
    { unfold s', compress, extractSparse.
      destruct (for_loop _ _ _). reflexivity. }
    rewrite <- Hring, <- (reconstruct_length s' sparse).
    apply omap_length_le.
Qed.

End SparseTensorRingProps.

(** *** The text "z" on any host *)

Section AnyHost.
Import SparseTensorRing.

Variable cosf : number -> number.

Let ring := new 32 4.
Let t0 := Spec.z_signal.
Let c := Spec.z_coefficient.

Hypothesis Hhost : Spec.host_cos cosf ring.

Lemma encode_z : encodeToTensor ring (lit "z") = t0 :: repeat 0%float 31.
Proof. vm_compute. reflexivity. Qed.

Lemma angle_at_zero (i : nat) :
  (i < 4)%nat -> angle ring (nat2F i) (nat2F 0) = 0%float.
Proof.
  intros Hi. destruct i as [|[|[|[|i]]]]; [reflexivity.. | lia].
Qed.

Lemma tail_cell (j : nat) :
  (1 <= j < 32)%nat -> cell (t0 :: repeat 0%float 31) j = 0%float.
Proof.
  intros Hj. apply float_eqb_eq.
  assert (Hall : forallb
                   (fun j => PrimFloat.Leibniz.eqb
                               (cell (t0 :: repeat 0%float 31) j) 0%float)
                   (seq 1 31) = true) by (vm_compute; reflexivity).
  rewrite forallb_forall in Hall. apply Hall, in_seq. lia.
Qed.

(** Each projection sums the one non-zero value of the signal. *)
Lemma projection_sum (i n : nat) :
  (i < 4)%nat -> (1 <= n <= 32)%nat ->
  for_loop n
    (fun j sum =>
       (sum + cell (t0 :: repeat 0%float 31) j
              * cosf (angle ring (nat2F i) (nat2F j)))%float)
    0%float = t0.
Proof.
  intros Hi Hn. destruct Hhost as [Hzero Hfin].
  induction n as [|n IH]; [lia|].
  rewrite for_loop_S. destruct n as [|n].
  - rewrite for_loop_0, angle_at_zero, Hzero by exact Hi. reflexivity.
  - rewrite IH by lia. rewrite tail_cell by lia.
    destruct (zero_times_finite
                (cosf (angle ring (nat2F i) (nat2F (S n))))) as [-> | ->];
      [apply Hfin; cbn; lia | reflexivity | reflexivity].
Qed.

Lemma decompose_z :
  tensorDecomposition cosf ring (encodeToTensor ring (lit "z")) = [c; c; c; c].
Proof.
  rewrite encode_z. unfold tensorDecomposition.
  change (rankBound ring) with 4%nat.
  change (length (t0 :: repeat 0%float 31)) with 32%nat.
  rewrite (for_loop_ext 4 _ (fun i compressed => <[i := c]> compressed)).
  - reflexivity.
  - intros i compressed Hi. cbv zeta. rewrite projection_sum by lia.
    reflexivity.
Qed.

(** All four coefficients of "z" pass the threshold. *)
Lemma compress_z :
  fst (compress cosf (lit "z") ring) = [0; c; 1; c; 2; c; 3; c]%float.
Proof.
  unfold compress. rewrite decompose_z. vm_compute. reflexivity.
Qed.

(** Position 0 of the reconstruction after [k] of the four pairs. *)
Lemma reconstruct_first (k : nat) :
  (k <= 4)%nat ->
  let sparse := [0; c; 1; c; 2; c; 3; c]%float in
  let rec :=
    for_loop k
      (fun k reconstructed =>
         let index := cell sparse (2 * k) in
         let value := cell sparse (2 * k + 1) in
         for_loop (ringDimension ring)
           (fun j reconstructed =>
              let turn := (value * cosf (angle ring index (nat2F j)))%float in
              <[j := fround (cell reconstructed j + turn)%float]>
                reconstructed)
           reconstructed)
      (repeat 0%float (ringDimension ring)) in
  length rec = 32%nat
  /\ cell rec 0 = Nat.iter k (fun x => fround (x + c * 1)%float) 0%float.
Proof.
  destruct Hhost as [Hzero _]. intros Hk sparse.
  induction k as [|k IH]; cbn zeta.
  - rewrite for_loop_0. split; reflexivity.
  - rewrite for_loop_S. destruct (IH ltac:(lia)) as [Hlen Hcell].
    set (rec := for_loop k _ _) in *.
    destruct (update_loop
                (fun j x =>
                   fround (x + cell sparse (2 * k + 1)
                               * cosf (angle ring (cell sparse (2 * k))
                                         (nat2F j)))%float)
                nan (ringDimension ring) rec) as (Hlen' & Hin & _).
    match goal with
    | |- _ /\ cell ?L 0 = _ =>
        assert (HlenL : length L = length rec) by exact Hlen';
        assert (HL : L !! 0%nat
                     = Some (fround (cell rec 0
                                     + cell sparse (2 * k + 1)
                                       * cosf (angle ring (cell sparse (2 * k))
                                                 (nat2F 0)))%float))
          by (apply Hin; [cbn; lia | rewrite Hlen; lia])
    end.
    split; [rewrite HlenL; exact Hlen|].
    unfold cell at 1. rewrite HL.
    cbn [default from_option id Nat.iter]. rewrite Hcell.
    assert (Hk4 : (k = 0 \/ k = 1 \/ k = 2 \/ k = 3)%nat) by lia.
    destruct Hk4 as [-> | [-> | [-> | ->]]];
      match goal with
      | |- context [cosf ?a] => change a with 0%float
      end; rewrite Hzero; reflexivity.
Qed.

(** The code reconstructed at position 0 of "z" is 15. *)
Lemma reconstruct_z_first :
  charCode (reconstructTensor cosf ring (fst (compress cosf (lit "z") ring))) 0
  = RInt 15.
Proof.
  rewrite compress_z. unfold charCode, reconstructTensor.
  change (Nat.div2 (S (length [0; c; 1; c; 2; c; 3; c]%float))) with 4%nat.
  destruct (reconstruct_first 4 ltac:(lia)) as [_ Hcell].
  cbv zeta in Hcell. rewrite Hcell. vm_compute. reflexivity.
Qed.

(** On every host the round trip of "z" is not a reproduction. *)
Lemma roundtrip_z_any_host : ~ Spec.reproduces cosf ring (lit "z").
Proof.
  intros H. unfold Spec.reproduces in H.
  destruct (H ltac:(rewrite compress_z; reflexivity) 0%nat 122 eq_refl)
    as (c' & Hc & Habs).
  rewrite reconstruct_z_first in Hc. injection Hc as <-.
  vm_compute in Habs. apply Habs. reflexivity.
Qed.

End AnyHost.

(** The reference cosine is a host cosine for the default ring. *)
Lemma cos_ref_host : Spec.host_cos cos_ref (SparseTensorRing.new 32 4).
Proof.
  split; [vm_compute; reflexivity|].
  intros i j Hi Hj. cbn in Hi, Hj.
  assert (Hall : forallb
                   (fun i => forallb
                     (fun j => is_finite
                                 (cos_ref (SparseTensorRing.angle
                                             (SparseTensorRing.new 32 4)
                                             (nat2F i) (nat2F j))))
                     (seq 0 32))
                   (seq 0 4) = true) by (vm_compute; reflexivity).
  rewrite forallb_forall in Hall.
  specialize (Hall i ltac:(apply in_seq; lia)).
  rewrite forallb_forall in Hall. apply Hall, in_seq. lia.
Qed.

(** C1, as stated, fails on the text "z": every one of the four
    coefficients passes the 0.01 threshold, yet the code reconstructed at
    position 0 is 15 and not 122.  At position 0 every angle is 0, so the
    result is the same with any host cosine ([roundtrip_z_any_host]). *)
Lemma roundtrip_z_not_reproduced :
  ~ Spec.reproduces cos_ref (SparseTensorRing.new 32 4) (lit "z").
Proof. exact (roundtrip_z_any_host cos_ref cos_ref_host). Qed.

(** ** Printed numbers *)

(** The code unit of the letter p, which no printed number contains. *)
Abbreviation letter_p := 112.

Abbreviation no_p := (Forall (fun c : Z => c <> letter_p)).

Ltac closed_no_p := repeat constructor; vm_compute; discriminate.

Lemma digits_no_p (k : nat) (s : Z) (acc : jsstring) :
  no_p acc -> no_p (digits k s acc).
Proof.
  revert s acc. induction k as [|k IH]; intros s acc Hacc.
  - exact Hacc.
  - cbn [digits]. apply IH. constructor; [|exact Hacc].
    pose proof (Z.mod_pos_bound s 10). lia.
Qed.

Lemma strip_zeros_no_p (s : jsstring) : no_p s -> no_p (strip_zeros s).
Proof.
  induction s as [|c s IH]; intros Hs; [exact Hs|].
  cbn [strip_zeros]. destruct s as [|d s]; [exact Hs|].
  destruct (c =? 48); [|exact Hs].
  apply IH. apply Forall_cons in Hs as [_ Hs]. exact Hs.
Qed.

Lemma decimal_no_p (z : Z) : no_p (decimal z).
Proof. apply strip_zeros_no_p, digits_no_p. constructor. Qed.

Lemma zeros_no_p (n : Z) : no_p (zeros n).
Proof.
  unfold zeros. induction (Z.to_nat n) as [|k IH]; constructor;
    [discriminate | exact IH].
Qed.

Lemma layout_no_p (s k n : Z) : no_p (layout s k n).
Proof.
  assert (Hds : no_p (digits (Z.to_nat k) s []))
    by (apply digits_no_p; constructor).
  unfold layout.
  repeat match goal with
         | |- context [if ?b then _ else _] => destruct b
         end;
    repeat (apply Forall_app; split);
    auto using zeros_no_p, decimal_no_p, Forall_take, Forall_drop;
    closed_no_p.
Qed.

(** No printed number contains the letter p. *)
Lemma numberToString_no_p (x : number) : no_p (numberToString x).
Proof.
  unfold numberToString. destruct (Prim2SF x) as [sg|sg| |sg m e].
  - closed_no_p.
  - destruct sg; closed_no_p.
  - closed_no_p.
  - destruct (shortest 17 (Z.pos m) e _ 1) as [[s k] n].
    apply Forall_app. split; [destruct sg; closed_no_p | apply layout_no_p].
Qed.

(** A string without the letter p does not contain [input]. *)
Lemma no_p_no_input (s : jsstring) :
  no_p s -> includes s (lit "input") = false.
Proof.
  intros Hs. destruct (includes s (lit "input")) eqn:Hinc; [|reflexivity].
  apply includes_spec in Hinc as (pre & post & ->).
  apply Forall_app in Hs as [_ Hs]. apply Forall_app in Hs as [Hs _].
  exfalso. apply Forall_forall with (x := letter_p) in Hs; [congruence|].
  apply list_elem_of_In. vm_compute. tauto.
Qed.

(** ** Sums of unit states *)

(** A check that holds on every integer of a range holds on each of them. *)
Lemma Zrange_forallb (f : Z -> bool) (lo : Z) (n : nat) :
  forallb f (map (fun i => lo + Z.of_nat i) (seq 0 n)) = true ->
  forall k, lo <= k < lo + Z.of_nat n -> f k = true.
Proof.
  intros H k Hk. rewrite forallb_forall in H. apply H.
  apply in_map_iff. exists (Z.to_nat (k - lo)). split; [lia|].
  apply in_seq. lia.
Qed.

(** Adding a unit state to a running sum of at most 52 of them is exact. *)
Lemma unit_sum_step (k v : Z) :
  -52 <= k <= 52 -> -1 <= v <= 1 -> (Z2F k + Z2F v)%float = Z2F (k + v).
Proof.
  intros Hk Hv. apply float_eqb_eq.
  assert (Hrange : -52 <= k < -52 + Z.of_nat 105) by lia.
  apply (Zrange_forallb
           (fun k => forallb
                       (fun v => PrimFloat.Leibniz.eqb
                                   (Z2F k + Z2F v)%float (Z2F (k + v)))
                       [-1; 0; 1])
           (-52) 105 ltac:(vm_compute; reflexivity)) in Hrange.
  rewrite forallb_forall in Hrange. apply Hrange.
  assert (v = -1 \/ v = 0 \/ v = 1) as [-> | [-> | ->]] by lia; cbn; tauto.
Qed.

(** The mean of 52 unit states lies between -1 and 1. *)
Lemma unit_mean_step (k : Z) :
  -52 <= k <= 52 ->
  (-1 <=? Z2F k / nat2F 52)%float = true
  /\ (Z2F k / nat2F 52 <=? 1)%float = true.
Proof.
  intros Hk. apply andb_true_iff.
  assert (Hrange : -52 <= k < -52 + Z.of_nat 105) by lia.
  exact (Zrange_forallb
           (fun k => (-1 <=? Z2F k / nat2F 52)%float
                     && (Z2F k / nat2F 52 <=? 1)%float)
           (-52) 105 ltac:(vm_compute; reflexivity) k Hrange).
Qed.

Lemma ternary_sum (l : list Z) (k0 : Z) :
  Forall (fun v => v = -1 \/ v = 0 \/ v = 1) l ->
  Z.abs k0 + Z.of_nat (length l) <= 52 ->
  exists k,
    Z.abs k <= Z.abs k0 + Z.of_nat (length l)
    /\ fold_left (fun sum v => (sum + Z2F v)%float) l (Z2F k0) = Z2F k.
Proof.
  revert k0. induction l as [|v l IH]; intros k0 Hl Hk0.
  - exists k0. cbn in *. split; [lia | reflexivity].
  - apply Forall_cons in Hl as [Hv Hl]. cbn [length] in Hk0.
    cbn [fold_left]. rewrite unit_sum_step by lia.
    destruct (IH (k0 + v) Hl ltac:(lia)) as (k & Hk & Hsum).
    exists k. split; [cbn [length]; lia | exact Hsum].
Qed.

Lemma mean_bounded (l : list Z) :
  Forall (fun v => v = -1 \/ v = 0 \/ v = 1) l -> length l = 52%nat ->
  (-1 <=? Spec.arithmetic_mean l)%float = true
  /\ (Spec.arithmetic_mean l <=? 1)%float = true.
Proof.
  intros Hl Hlen. unfold Spec.arithmetic_mean.
  destruct (ternary_sum l 0 Hl ltac:(lia)) as (k & Hk & Hsum).
  change (Z2F 0) with 0%float in Hsum. rewrite Hsum, Hlen.
  apply unit_mean_step. lia.
Qed.

(** ** HybridCore *)

Section HybridCoreProps.
Import HybridCore.

Variable cosf : number -> number.

Lemma new_wf : wf new.
Proof.
  split; [reflexivity|]. split; [reflexivity|].
  unfold TernaryVPU.ternary_states. apply Forall_forall. intros v Hv.
  apply list_elem_of_In, repeat_spec in Hv. auto.
Qed.

(** [process] keeps the invariant of the constructor. *)
Lemma process_wf (processingTime : number) (input : jsstring) (c : t) :
  wf c -> wf (snd (process cosf processingTime input c)).
Proof.
  intros (Hn & Hwf & Htern). unfold process.
  destruct (SparseTensorRing.compress cosf input (tensorRing c))
    as [compressed ring'].
  destruct (TernaryVPU.process compressed (ternaryVPU c))
    as [vpuOutput vpu'] eqn:Hv.
  destruct (ResonanceNetwork.synchronizeVPUs _ _) as [synced res'].
  unfold TernaryVPU.process in Hv. injection Hv as _ <-.
  unfold wf. cbn [snd ternaryVPU]. split; [|split].
  - rewrite quantize_numVPUs. exact Hn.
  - apply quantize_wf, Hwf.
  - apply quantize_ternary_states, Htern.
Qed.

(** The value [process] returns is the reasoner's answer on the printed
    quantizer output; the synchronizer and the clock do not enter it. *)
Lemma process_output (processingTime : number) (input : jsstring) (c : t) :
  fst (process cosf processingTime input c)
  = CognitiveLayer.deductiveReason
      (numberToString
         (fst (TernaryVPU.process
                 (fst (SparseTensorRing.compress cosf input (tensorRing c)))
                 (ternaryVPU c))))
      [lit "input=>processed"].
Proof.
  unfold process.
  destruct (SparseTensorRing.compress cosf input (tensorRing c))
    as [compressed ring']. cbn [fst].
  destruct (TernaryVPU.process compressed (ternaryVPU c)) as [vpuOutput vpu'].
  destruct (ResonanceNetwork.synchronizeVPUs _ _) as [synced res'].
  reflexivity.
Qed.

(** The hard-coded rule does not fire on a printed number. *)
Lemma rule_never_fires (x : number) :
  CognitiveLayer.deductiveReason (numberToString x) [lit "input=>processed"]
  = Str (numberToString x).
Proof.
  rewrite deductive_skip; [reflexivity|].
  change (Spec.before_first CognitiveLayer.arrow (lit "input=>processed"))
    with (lit "input").
  intros Hsub. apply includes_spec in Hsub.
  rewrite no_p_no_input in Hsub by apply numberToString_no_p.
  discriminate Hsub.
Qed.

(** C10. [process] returns the decimal string of the quantizer's output, a
    number between -1 and 1; that string never contains [input], so the
    rule [input=>processed] never fires and the result is never
    [processed]; and the result is the same whatever the synchronizer's
    state, the history and the measured time are. *)
Theorem orchestrator_returns_number (processingTime : number)
    (input : jsstring) (c : t) :
  wf c ->
  let vpuOutput :=
    fst (TernaryVPU.process
           (fst (SparseTensorRing.compress cosf input (tensorRing c)))
           (ternaryVPU c)) in
  fst (process cosf processingTime input c) = Str (numberToString vpuOutput)
  /\ ((-1 <=? vpuOutput)%float = true /\ (vpuOutput <=? 1)%float = true)
  /\ includes (numberToString vpuOutput) (lit "input") = false
  /\ fst (process cosf processingTime input c) <> Str (lit "processed")
  /\ (forall resonance' history' processingTime',
        fst (process cosf processingTime' input
               {| tensorRing := tensorRing c; ternaryVPU := ternaryVPU c;
                  resonance := resonance'; processingHistory := history' |})
        = fst (process cosf processingTime input c)).
Proof.
  intros (Hn & Hwf & Htern) vpuOutput.
  assert (Hout : fst (process cosf processingTime input c)
                 = Str (numberToString vpuOutput))
    by (rewrite process_output; apply rule_never_fires).
  split; [exact Hout|]. split; [|split; [|split]].
  - subst vpuOutput. unfold TernaryVPU.process. cbn [fst].
    rewrite computeOutput_mean by (apply quantize_wf, Hwf).
    apply mean_bounded.
    + apply quantize_ternary_states, Htern.
    + rewrite (quantize_wf _ _ Hwf), quantize_numVPUs. exact Hn.
  - apply no_p_no_input, numberToString_no_p.
  - rewrite Hout. intros [= Heq].
    pose proof (numberToString_no_p vpuOutput) as Hp. rewrite Heq in Hp.
    apply Forall_cons in Hp as [Hp _]. apply Hp. reflexivity.
  - intros resonance' history' processingTime'.
    rewrite !process_output. reflexivity.
Qed.

End HybridCoreProps.

Lemma orchestrator_returns_number_witness :
  HybridCore.wf HybridCore.new
  /\ fst (HybridCore.process cos_ref 1%float (lit "z") HybridCore.new)
     = Str (numberToString
              (fst (TernaryVPU.process
                      (fst (SparseTensorRing.compress cos_ref (lit "z")
                              (HybridCore.tensorRing HybridCore.new)))
                      (HybridCore.ternaryVPU HybridCore.new)))).
Proof.
  split; [exact new_wf|].
  exact (proj1 (orchestrator_returns_number cos_ref 1%float (lit "z")
                  HybridCore.new new_wf)).
Defined.

(** ** NeuralModeController *)

Section NeuralModeControllerProps.
Import NeuralModeController.

(** [slice(-k)] is the suffix of length [min(k, length)]. *)
Lemma slice_last_suffix (k : nat) (s : jsstring) :
  s = take (length s - k) s ++ slice_last k s
  /\ length (slice_last k s) = Nat.min k (length s).
Proof.
  unfold slice_last. split.
  - symmetry. apply take_drop.
  - rewrite length_drop. lia.
Qed.

(** C2 (amended). In temporal mode, for every input and every supplied
    memory sequence (the context's [memoryState]; the empty sequence when
    the context or its [memoryState] is missing), [process] joins the
    memory with spaces into the recalled string, returns the output
    [recalled → input], returns as [memoryState] the supplied memory with
    that output appended at the end, and returns as [anticipation] the
    label [anticipated: ] followed by the last 10 code units of the output
    (all of it when shorter); the controller itself is unchanged. *)
Theorem temporal_result (input : jsstring) (memory : list jsstring)
    (context : option Context) (s : t) :
  context = Some {| ctx_memoryState := Some memory |}
  \/ (memory = []
      /\ (context = None \/ context = Some {| ctx_memoryState := None |})) ->
  let recalled := join (lit " ") memory in
  let r := fst (process input context (setMode TEMPORAL s)) in
  output r = recalled ++ [32; 8594; 32] ++ input
  /\ memoryState r = Some (memory ++ [recalled ++ [32; 8594; 32] ++ input])
  /\ (exists before last,
        output r = before ++ last
        /\ length last = Nat.min 10 (length (output r))
        /\ anticipation r = Some (lit "anticipated: " ++ last))
  /\ snd (process input context (setMode TEMPORAL s)) = setMode TEMPORAL s.
Proof.
  intros Hctx recalled r.
  assert (Hmem : context_memory context = memory).
  { destruct Hctx as [-> | [-> [-> | ->]]]; reflexivity. }
  assert (Hout : output r = recalled ++ [32; 8594; 32] ++ input).
  { subst r recalled. rewrite <- Hmem. reflexivity. }
  split; [exact Hout|]. split.
  - rewrite <- Hout. subst r. rewrite <- Hmem. reflexivity.
  - split; [|reflexivity].
    exists (take (length (output r) - 10) (output r)),
      (slice_last 10 (output r)).
    destruct (slice_last_suffix 10 (output r)) as [Hcat Hlen].
    repeat split; [exact Hcat | exact Hlen].
Qed.

Lemma temporal_result_witness :
  (Some {| ctx_memoryState := Some [lit "a"; lit "b"] |}
   = Some {| ctx_memoryState := Some [lit "a"; lit "b"] |}
   \/ ([lit "a"; lit "b"] = []
       /\ (Some {| ctx_memoryState := Some [lit "a"; lit "b"] |} = None
           \/ Some {| ctx_memoryState := Some [lit "a"; lit "b"] |}
              = Some {| ctx_memoryState := None |})))
  /\ memoryState
       (fst (process (lit "x")
               (Some {| ctx_memoryState := Some [lit "a"; lit "b"] |})
               (setMode TEMPORAL new)))
     = Some [lit "a"; lit "b"; lit "a b" ++ [32; 8594; 32] ++ lit "x"].
Proof.
  split; [left; reflexivity|].
  exact (proj1 (proj2 (temporal_result (lit "x") [lit "a"; lit "b"]
                         (Some {| ctx_memoryState := Some [lit "a"; lit "b"] |})
                         new (or_introl eq_refl)))).
Defined.

(** C2, as stated, fails: with no context, hence the empty memory, and the
    input "x" the returned [memoryState] holds the output [ → x], not the
    memory with the input appended. *)
Lemma temporal_memory_not_input :
  memoryState (fst (process (lit "x") None (setMode TEMPORAL new)))
  <> Some ([] ++ [lit "x"]).
Proof. vm_compute. discriminate. Qed.

(** Every reachable level is one of [level_after 0 .. level_after 100]. *)
Lemma level_after_fixed : level_after 101 = level_after 100.
Proof. vm_compute. reflexivity. Qed.

Lemma tracked_level (s : t) (k : nat) :
  (k <= 100)%nat -> consciousnessLevel s = level_after k ->
  exists k', (k' <= 100)%nat
    /\ consciousnessLevel (updateConsciousnessLevel s) = level_after k'.
Proof.
  intros Hk Hs. destruct (decide (k = 100%nat)) as [->|Hne].
  - exists 100%nat. split; [lia|]. rewrite <- level_after_fixed.
    cbn [level_after updateConsciousnessLevel consciousnessLevel].
    rewrite Hs. reflexivity.
  - exists (S k). split; [lia|].
    cbn [level_after updateConsciousnessLevel consciousnessLevel].
    rewrite Hs. reflexivity.
Qed.

Lemma reachable_level (s : t) :
  reachable s ->
  exists k, (k <= 100)%nat /\ consciousnessLevel s = level_after k.
Proof.
  induction 1 as [|m s _ IH|s _ IH|input context s _ (k & Hk & Hs)].
  - exists 0%nat. split; [lia | reflexivity].
  - exact IH.
  - exists 0%nat. split; [lia | reflexivity].
  - unfold process, processHybrid, processConscious.
    destruct (currentMode s); cbn [snd];
      eauto using tracked_level.
Qed.

(** Below the cap a tracked call strictly raises the level. *)
Lemma level_rises (k : nat) :
  (k <= 100)%nat -> lt (level_after k) 1%float = true ->
  lt (level_after k) (level_after (S k)) = true.
Proof.
  intros Hk Hlt.
  assert (Hall : forallb
                   (fun k => implb (lt (level_after k) 1%float)
                               (lt (level_after k) (level_after (S k))))
                   (seq 0 101) = true) by (vm_compute; reflexivity).
  rewrite forallb_forall in Hall.
  specialize (Hall k ltac:(apply in_seq; lia)).
  rewrite Hlt in Hall. exact Hall.
Qed.

(** A reachable level is below the cap or at it. *)
Lemma level_below_or_at_cap (k : nat) :
  (k <= 100)%nat ->
  lt (level_after k) 1%float = true \/ level_after k = 1%float.
Proof.
  intros Hk. destruct (decide (k = 100%nat)) as [->|Hne].
  - right. vm_compute. reflexivity.
  - left.
    assert (Hall : forallb (fun k => lt (level_after k) 1%float) (seq 0 100)
                   = true) by (vm_compute; reflexivity).
    rewrite forallb_forall in Hall. apply Hall. apply in_seq. lia.
Qed.

(** C3 (amended). After [setMode(hybrid)], on every reachable controller
    state [process("x")] returns a result whose [qualiaState] and
    [memoryState] are non-empty and whose [fullSynthesis] is true; its
    [consciousnessLevel] is strictly greater than before the call when the
    level before was below 1.0, and equal to 1.0 when it already was 1.0,
    one of which is the case. *)
Theorem hybrid_result (context : option Context) (s : t) :
  reachable s ->
  let before := consciousnessLevel s in
  let r := fst (process (lit "x") context (setMode HYBRID s)) in
  (exists q, qualiaState r = Some q /\ content q <> [])
  /\ (exists m, memoryState r = Some m /\ m <> [])
  /\ fullSynthesis r = Some true
  /\ (exists after,
        res_consciousnessLevel r = Some after
        /\ (lt before 1%float = true -> lt before after = true)
        /\ (before = 1%float -> after = 1%float)
        /\ (lt before 1%float = true \/ before = 1%float)).
Proof.
  intros Hreach before r.
  destruct (reachable_level s Hreach) as (k & Hk & Hlevel).
  split; [|split; [|split]].
  - eexists. split; [reflexivity | discriminate].
  - eexists. split; [reflexivity|].
    destruct (context_memory context); discriminate.
  - reflexivity.
  - exists (Math_min 1.0%float (before + 0.01)%float).
    split; [reflexivity|]. subst before. rewrite Hlevel.
    split; [|split].
    + apply (level_rises k Hk).
    + intros ->. reflexivity.
    + apply level_below_or_at_cap, Hk.
Qed.

Lemma process_times_reachable (k : nat) (input : jsstring) (s : t) :
  reachable s -> reachable (process_times k input s).
Proof.
  intros Hs. induction k as [|k IH]; [exact Hs|].
  cbn [process_times]. apply reach_process, IH.
Qed.

Lemma hybrid_result_witness :
  reachable new
  /\ fullSynthesis (fst (process (lit "x") None (setMode HYBRID new)))
     = Some true.
Proof.
  split; [exact reach_new|].
  exact (proj1 (proj2 (proj2 (hybrid_result None new reach_new)))).
Defined.

(** Repeated hybrid calls only move the level. *)
Lemma process_times_hybrid (k : nat) (input : jsstring) (s : t) :
  currentMode s = HYBRID ->
  process_times k input s
  = {| currentMode := HYBRID;
       consciousnessLevel :=
         Nat.iter k (fun l => Math_min 1.0%float (l + 0.01)%float)
           (consciousnessLevel s) |}.
Proof.
  intros Hmode. induction k as [|k IH].
  - destruct s. cbn in *. congruence.
  - cbn [process_times Nat.iter]. rewrite IH. reflexivity.
Qed.

(** C3, as stated, fails once the level has reached its cap: after 100
    hybrid calls the level is 1.0, and the next [process("x")] returns the
    level 1.0 again, which is not strictly greater. *)
Lemma hybrid_level_stays_at_cap :
  let s := process_times 100 (lit "x") (setMode HYBRID new) in
  reachable s
  /\ consciousnessLevel s = 1%float
  /\ res_consciousnessLevel
       (fst (process (lit "x") None (setMode HYBRID s))) = Some 1%float
  /\ lt 1%float 1%float = false.
Proof.
  cbn zeta. split.
  - apply process_times_reachable, reach_setMode, reach_new.
  - rewrite process_times_hybrid by reflexivity.
    split; [|split].
    + vm_compute. reflexivity.
    + cbn [process setMode currentMode processHybrid processConscious fst
           res_consciousnessLevel updateConsciousnessLevel consciousnessLevel].
      vm_compute. reflexivity.
    + reflexivity.
Qed.

End NeuralModeControllerProps.

(** * Further properties of the sources *)

(** ** TernaryVPU: more on [process] *)

Section TernaryVPUMore.
Import TernaryVPU.

(** Two quantizer objects with the same fields are the same. *)
Lemma quantizer_eq (s1 s2 : t) :
  numVPUs s1 = numVPUs s2 -> vpuStates s1 = vpuStates s2 -> s1 = s2.
Proof. destruct s1, s2. cbn. intros -> ->. reflexivity. Qed.

(** X1. Processing the same input a second time changes nothing: the state
    and the returned mean are those of the first call. *)
Theorem process_idempotent (input : list number) (s : t) :
  wf s ->
  process input (snd (process input s)) = process input s.
Proof.
  intros Hwf. unfold process. cbn [snd].
  assert (Hsame : quantizeToTernary input (quantizeToTernary input s)
                  = quantizeToTernary input s).
  { pose proof (quantize_wf input s Hwf) as Hwf'.
    apply quantizer_eq; [apply quantize_numVPUs|].
    apply list_eq. intros i.
    destruct (decide (i < Nat.min (length input) (numVPUs s))%nat) as [Hi|Hi].
    - rewrite !quantize_written;
        rewrite ?quantize_numVPUs; trivial; lia.
    - rewrite quantize_kept by (rewrite quantize_numVPUs; lia).
      reflexivity. }
  rewrite Hsame. reflexivity.
Qed.

Lemma process_idempotent_witness :
  wf (new 52)
  /\ process [0.5%float] (snd (process [0.5%float] (new 52)))
     = process [0.5%float] (new 52).
Proof.
  split; [reflexivity|].
  apply (process_idempotent [0.5%float] (new 52)). reflexivity.
Defined.

(** X2. An input at least as long as the unit array overwrites every unit:
    the state after the call is the quantization of the first [numVPUs]
    input values, whatever the state was before. *)
Theorem long_input_overwrites (input : list number) (s : t) :
  wf s -> (numVPUs s <= length input)%nat ->
  vpuStates (snd (process input s)) = map ternary (take (numVPUs s) input).
Proof.
  intros Hwf Hlen. unfold process. cbn [snd].
  pose proof (quantize_wf input s Hwf) as Hwf'. unfold wf in Hwf, Hwf'.
  rewrite quantize_numVPUs in Hwf'.
  apply list_eq. intros i.
  destruct (decide (i < numVPUs s)%nat) as [Hi|Hi].
  - rewrite quantize_written by (trivial; lia).
    change (map ternary) with (fmap (M := list) ternary).
    rewrite list_lookup_fmap, lookup_take_lt by exact Hi.
    unfold cell. destruct (input !! i) eqn:Hin; [reflexivity|].
    apply lookup_ge_None in Hin. lia.
  - rewrite (lookup_ge_None_2 (vpuStates _)) by lia.
    symmetry. apply lookup_ge_None_2.
    rewrite length_map, length_take. lia.
Qed.

Lemma long_input_overwrites_witness :
  wf (new 2) /\ (numVPUs (new 2) <= length [0.5; -0.5; 0.1]%float)%nat
  /\ vpuStates (snd (process [0.5; -0.5; 0.1]%float (new 2)))
     = map ternary (take (numVPUs (new 2)) [0.5; -0.5; 0.1]%float).
Proof.
  split; [reflexivity|]. split; [cbn; lia|].
  apply (long_input_overwrites [0.5; -0.5; 0.1]%float (new 2));
    [reflexivity | cbn; lia].
Defined.

(** X3. Whatever inputs a quantizer has processed since its construction,
    it still has the unit count it was built with, its array has that
    length, and every unit holds -1, 0 or +1. *)
Theorem quantizer_invariant (n : nat) (inputs : list (list number)) :
  let s := Spec.quantizer_after n inputs in
  numVPUs s = n /\ wf s /\ ternary_states s.
Proof.
  unfold Spec.quantizer_after.
  assert (Hnew : numVPUs (new n) = n /\ wf (new n) /\ ternary_states (new n)).
  { split; [reflexivity|]. split; [apply repeat_length|].
    apply Forall_forall. intros v Hv.
    apply list_elem_of_In, repeat_spec in Hv. auto. }
  revert Hnew. generalize (new n) as s.
  induction inputs as [|input inputs IH]; intros s Hs; [exact Hs|].
  cbn [fold_left]. apply IH. destruct Hs as (Hn & Hwf & Htern).
  unfold process. cbn [snd]. split; [|split].
  - rewrite quantize_numVPUs. exact Hn.
  - apply quantize_wf, Hwf.
  - apply quantize_ternary_states, Htern.
Qed.

End TernaryVPUMore.

(** ** CognitiveLayer: rules that fire, and [inductiveReason] *)

Section CognitiveLayerMore.
Import CognitiveLayer.

Lemma substring_cons (sub s : jsstring) (c : Z) :
  Spec.substring sub s -> Spec.substring sub (c :: s).
Proof. intros (pre & post & ->). exists (c :: pre), post. reflexivity. Qed.

(** A string without [=>] is a single piece. *)
Lemma split_go_free (cur s : jsstring) :
  ~ Spec.substring arrow s -> split_go arrow 0 cur s = [rev cur ++ s].
Proof.
  revert cur. induction s as [|c s IH]; intros cur Hfree.
  - cbn. rewrite app_nil_r. reflexivity.
  - cbn [split_go]. destruct (prefixb arrow (c :: s)) eqn:Hp.
    + exfalso. apply Hfree. apply prefixb_spec in Hp as [post Hp].
      exists [], post. exact Hp.
    + rewrite IH by (intros H; apply Hfree, substring_cons, H).
      cbn. rewrite <- app_assoc. reflexivity.
Qed.

(** The first [=>] of [a ++ "=>" ++ b] is the one written, when [a] has
    none. *)
Lemma split_go_arrow (cur a b : jsstring) :
  ~ Spec.substring arrow a ->
  split_go arrow 0 cur (a ++ arrow ++ b)
  = (rev cur ++ a) :: split_go arrow 0 [] b.
Proof.
  revert cur. induction a as [|c a IH]; intros cur Hfree.
  - cbn. rewrite app_nil_r. reflexivity.
  - cbn [app split_go].
    destruct (prefixb arrow (c :: a ++ arrow ++ b)) eqn:Hp.
    + exfalso. change arrow with [61; 62] in Hp. destruct a as [|d a].
      * cbn -[Z.eqb] in Hp. apply andb_true_iff in Hp as [_ Hp].
        vm_compute in Hp. discriminate Hp.
      * cbn -[Z.eqb] in Hp. apply andb_true_iff in Hp as [Hc Hd].
        apply andb_true_iff in Hd as [Hd _].
        apply Z.eqb_eq in Hc, Hd. subst c d.
        apply Hfree. exists [], a. reflexivity.
    + rewrite IH by (intros H; apply Hfree, substring_cons, H).
      cbn. rewrite <- app_assoc. reflexivity.
Qed.

Lemma before_first_free_id (s : jsstring) :
  ~ Spec.substring arrow s -> Spec.before_first arrow s = s.
Proof.
  intros Hfree.
  pose proof (split_go_head arrow [] s) as Hhead.
  rewrite split_go_free in Hhead by exact Hfree.
  cbn [rev app lookup list_lookup] in Hhead. injection Hhead as Hhead.
  symmetry. exact Hhead.
Qed.

(** The two pieces a rule [a=>b] is read as. *)
Lemma rule_pieces (a b : jsstring) :
  ~ Spec.substring arrow a ->
  at_index (split (a ++ arrow ++ b) arrow) 0 = Str a
  /\ at_index (split (a ++ arrow ++ b) arrow) 1
     = Str (Spec.before_first arrow b).
Proof.
  intros Hfree. unfold split, at_index. rewrite split_go_arrow by exact Hfree.
  split; [reflexivity|]. cbn [lookup list_lookup].
  rewrite split_go_head. reflexivity.
Qed.

(** Rules that do not match are passed over. *)
Lemma deductive_skip_all (premise : jsstring) (pre rest : list jsstring) :
  (forall r, In r pre ->
     ~ Spec.substring (Spec.before_first arrow r) premise) ->
  deductiveReason premise (pre ++ rest) = deductiveReason premise rest.
Proof.
  induction pre as [|r pre IH]; intros Hno; [reflexivity|].
  cbn [app]. rewrite deductive_skip by (apply Hno; left; reflexivity).
  apply IH. intros r' Hr'. apply Hno. right. exact Hr'.
Qed.

(** X4. The first rule whose antecedent occurs in the premise decides the
    answer: for a rule [a=>b] (with no [=>] inside [a]) that follows only
    rules that do not match, the answer is the part of [b] before its next
    [=>], hence [b] itself when [b] has none; later rules are not
    consulted. *)
Theorem deductive_first_match (premise a b : jsstring)
    (pre post : list jsstring) :
  (forall r, In r pre ->
     ~ Spec.substring (Spec.before_first (lit "=>") r) premise) ->
  ~ Spec.substring (lit "=>") a ->
  Spec.substring a premise ->
  deductiveReason premise (pre ++ (a ++ lit "=>" ++ b) :: post)
  = Str (Spec.before_first (lit "=>") b)
  /\ (~ Spec.substring (lit "=>") b ->
      deductiveReason premise (pre ++ (a ++ lit "=>" ++ b) :: post) = Str b).
Proof.
  intros Hpre Hfree Hin.
  assert (Hfire : deductiveReason premise (pre ++ (a ++ lit "=>" ++ b) :: post)
                  = Str (Spec.before_first (lit "=>") b)).
  { rewrite deductive_skip_all by exact Hpre. cbn [deductiveReason].
    destruct (rule_pieces a b Hfree) as [H0 H1].
    change (lit "=>") with arrow. rewrite H0, H1. cbn [to_str].
    apply includes_spec in Hin. rewrite Hin. reflexivity. }
  split; [exact Hfire|].
  intros Hb. rewrite Hfire. f_equal. apply before_first_free_id, Hb.
Qed.

Lemma deductive_first_match_witness :
  (forall r, In r [lit "x=>y"] ->
     ~ Spec.substring (Spec.before_first (lit "=>") r) (lit "my input"))
  /\ ~ Spec.substring (lit "=>") (lit "input")
  /\ Spec.substring (lit "input") (lit "my input")
  /\ deductiveReason (lit "my input")
       ([lit "x=>y"] ++ (lit "input" ++ lit "=>" ++ lit "processed") :: [])
     = Str (Spec.before_first (lit "=>") (lit "processed")).
Proof.
  assert (H1 : forall r, In r [lit "x=>y"] ->
     ~ Spec.substring (Spec.before_first (lit "=>") r) (lit "my input")).
  { intros r [<- | []] H. apply includes_spec in H. discriminate H. }
  assert (H2 : ~ Spec.substring (lit "=>") (lit "input")).
  { intros H. apply includes_spec in H. discriminate H. }
  assert (H3 : Spec.substring (lit "input") (lit "my input")).
  { apply includes_spec. reflexivity. }
  split; [exact H1|]. split; [exact H2|]. split; [exact H3|].
  exact (proj1 (deductive_first_match (lit "my input") (lit "input")
                  (lit "processed") [lit "x=>y"] [] H1 H2 H3)).
Defined.

(** X5. A rule that contains no [=>] still matches when its text occurs in
    the premise (the empty rule matches every premise), and the answer is
    then [undefined], not a string. *)
Theorem deductive_rule_without_arrow (premise rule : jsstring)
    (pre post : list jsstring) :
  (forall r, In r pre ->
     ~ Spec.substring (Spec.before_first (lit "=>") r) premise) ->
  ~ Spec.substring (lit "=>") rule ->
  Spec.substring rule premise ->
  deductiveReason premise (pre ++ rule :: post) = Undefined
  /\ deductiveReason premise (pre ++ [] :: post) = Undefined.
Proof.
  intros Hpre Hfree Hin.
  assert (Hone : forall r,
            ~ Spec.substring arrow r -> Spec.substring r premise ->
            deductiveReason premise (pre ++ r :: post) = Undefined).
  { intros r Hr Hsub. rewrite deductive_skip_all by exact Hpre.
    cbn [deductiveReason]. unfold split, at_index.
    rewrite split_go_free by exact Hr. cbn [rev app lookup list_lookup to_str].
    apply includes_spec in Hsub. rewrite Hsub. reflexivity. }
  split; [apply Hone; assumption|].
  apply Hone.
  - intros H. apply includes_spec in H. discriminate H.
  - exists [], premise. reflexivity.
Qed.

Lemma deductive_rule_without_arrow_witness :
  (forall r, In r (@nil jsstring) ->
     ~ Spec.substring (Spec.before_first (lit "=>") r) (lit "my input"))
  /\ ~ Spec.substring (lit "=>") (lit "input")
  /\ Spec.substring (lit "input") (lit "my input")
  /\ deductiveReason (lit "my input") ([] ++ lit "input" :: []) = Undefined.
Proof.
  assert (H1 : forall r, In r (@nil jsstring) ->
     ~ Spec.substring (Spec.before_first (lit "=>") r) (lit "my input"))
    by (intros r []).
  assert (H2 : ~ Spec.substring (lit "=>") (lit "input")).
  { intros H. apply includes_spec in H. discriminate H. }
  assert (H3 : Spec.substring (lit "input") (lit "my input")).
  { apply includes_spec. reflexivity. }
  split; [exact H1|]. split; [exact H2|]. split; [exact H3|].
  exact (proj1 (deductive_rule_without_arrow (lit "my input") (lit "input")
                  [] [] H1 H2 H3)).
Defined.

(** *** [inductiveReason] *)

(** The keys of [patternCounts] after the words [ws]: each word once, in
    the order of first occurrence. *)
Let keys_after (ws : list jsstring) : list jsstring :=
  fold_left (fun ks w => if decide (w ∈ ks) then ks else ks ++ [w]) ws [].

#[local] Abbreviation entries f ks :=
  (map (fun k : jsstring => (k, f k : Z)) ks).

Lemma occurrences_snoc (w w' : jsstring) (ws : list jsstring) :
  Spec.occurrences w (ws ++ [w'])
  = Spec.occurrences w ws + (if decide (w' = w) then 1 else 0).
Proof.
  unfold Spec.occurrences. rewrite filter_app, length_app.
  rewrite filter_cons, filter_nil. destruct (decide (w' = w)); cbn; lia.
Qed.

Lemma occurrences_absent (w : jsstring) (ws : list jsstring) :
  w ∉ ws -> Spec.occurrences w ws = 0.
Proof.
  intros Hw. unfold Spec.occurrences.
  induction ws as [|x ws IH]; [reflexivity|].
  apply not_elem_of_cons in Hw as [Hne Hw].
  rewrite filter_cons. destruct (decide (x = w)); [congruence|].
  apply IH, Hw.
Qed.

Lemma occurrences_present (w : jsstring) (ws : list jsstring) :
  w ∈ ws -> 0 < Spec.occurrences w ws.
Proof.
  intros Hw. unfold Spec.occurrences.
  induction ws as [|x ws IH]; [inversion Hw|].
  rewrite filter_cons. destruct (decide (x = w)); [cbn; lia|].
  apply elem_of_cons in Hw as [Hw|Hw]; [congruence|]. apply IH, Hw.
Qed.

Lemma keys_after_snoc (ws : list jsstring) (w : jsstring) :
  keys_after (ws ++ [w])
  = if decide (w ∈ keys_after ws) then keys_after ws
    else keys_after ws ++ [w].
Proof. unfold keys_after. rewrite fold_left_app. reflexivity. Qed.

Lemma keys_after_elem (ws : list jsstring) (w : jsstring) :
  w ∈ keys_after ws <-> w ∈ ws.
Proof.
  induction ws as [|x ws IH] using rev_ind.
  - reflexivity.
  - rewrite keys_after_snoc, elem_of_app, list_elem_of_singleton.
    destruct (decide (x ∈ keys_after ws)) as [Hx|Hx].
    + rewrite IH. split; [auto|]. intros [H| ->]; [exact H|]. apply IH, Hx.
    + rewrite elem_of_app, list_elem_of_singleton, IH. reflexivity.
Qed.

Lemma keys_after_NoDup (ws : list jsstring) : NoDup (keys_after ws).
Proof.
  induction ws as [|x ws IH] using rev_ind.
  - constructor.
  - rewrite keys_after_snoc. destruct (decide (x ∈ keys_after ws)) as [Hx|Hx].
    + exact IH.
    + apply NoDup_app. split; [exact IH|]. split.
      * intros y Hy Hy'. apply list_elem_of_singleton in Hy'. congruence.
      * apply NoDup_singleton.
Qed.

(** Later words only add keys at the end. *)
Lemma keys_after_app (ws1 ws2 : list jsstring) :
  exists more, keys_after (ws1 ++ ws2) = keys_after ws1 ++ more.
Proof.
  induction ws2 as [|x ws2 (more & IH)] using rev_ind.
  - exists []. rewrite !app_nil_r. reflexivity.
  - rewrite app_assoc, keys_after_snoc, IH.
    destruct (decide (x ∈ keys_after ws1 ++ more)).
    + exists more. reflexivity.
    + exists (more ++ [x]). rewrite app_assoc. reflexivity.
Qed.

Lemma map_get_entries (f : jsstring -> Z) (ks : list jsstring)
    (w : jsstring) :
  map_get w (entries f ks) = if decide (w ∈ ks) then Some (f w) else None.
Proof.
  induction ks as [|k ks IH]; cbn.
  - destruct (decide (w ∈ [])) as [H|H]; [inversion H | reflexivity].
  - destruct (decide (k = w)) as [->|Hne].
    + rewrite decide_True by apply list_elem_of_here. reflexivity.
    + rewrite IH. destruct (decide (w ∈ ks)) as [H|H].
      * rewrite decide_True by (apply list_elem_of_further, H). reflexivity.
      * rewrite decide_False; [reflexivity|].
        intros H'. apply elem_of_cons in H' as [H'|H']; congruence.
Qed.

Lemma map_set_new (f : jsstring -> Z) (ks : list jsstring) (w : jsstring)
    (v : Z) :
  w ∉ ks -> map_set w v (entries f ks) = entries f ks ++ [(w, v)].
Proof.
  induction ks as [|k ks IH]; intros Hw; cbn; [reflexivity|].
  apply not_elem_of_cons in Hw as [Hne Hw].
  rewrite decide_False by congruence. f_equal. apply IH, Hw.
Qed.

Lemma map_set_present (f : jsstring -> Z) (ks : list jsstring)
    (w : jsstring) (v : Z) :
  w ∈ ks -> NoDup ks ->
  map_set w v (entries f ks)
  = entries (fun k => if decide (k = w) then v else f k) ks.
Proof.
  induction ks as [|k ks IH]; intros Hw Hnd; [inversion Hw|].
  apply NoDup_cons in Hnd as [Hk Hnd]. cbn.
  destruct (decide (k = w)) as [->|Hne].
  - f_equal. apply map_ext_in. intros k Hk'.
    rewrite decide_False; [reflexivity|].
    intros ->. apply Hk, list_elem_of_In, Hk'.
  - f_equal. apply IH; [|exact Hnd].
    apply elem_of_cons in Hw as [Hw|Hw]; congruence.
Qed.

(** The map after the words [ws] holds each word once, in the order of
    first occurrence, with the number of its occurrences. *)
Lemma counted (ws : list jsstring) :
  fold_left count_word ws []
  = entries (fun w => Spec.occurrences w ws) (keys_after ws).
Proof.
  induction ws as [|x ws IH] using rev_ind; [reflexivity|].
  rewrite fold_left_app. cbn [fold_left]. rewrite IH. unfold count_word.
  rewrite map_get_entries, keys_after_snoc.
  destruct (decide (x ∈ keys_after ws)) as [Hx|Hx];
    cbn [default from_option id].
  - rewrite map_set_present by (trivial; apply keys_after_NoDup).
    apply map_ext. intros k. rewrite occurrences_snoc.
    destruct (decide (k = x)) as [->|Hne].
    + rewrite decide_True by reflexivity. reflexivity.
    + rewrite decide_False by congruence. f_equal. lia.
  - rewrite map_set_new by exact Hx. rewrite map_app. cbn.
    f_equal.
    + apply map_ext_in. intros k Hk. f_equal. rewrite occurrences_snoc.
      rewrite decide_False; [lia|].
      intros ->. apply Hx, list_elem_of_In, Hk.
    + rewrite occurrences_snoc, decide_True by reflexivity.
      rewrite occurrences_absent by (rewrite <- keys_after_elem; exact Hx).
      reflexivity.
Qed.

(** The scan keeps the first entry of greatest count. *)
Lemma scan_first_max (f : jsstring -> Z) (ks : list jsstring) (m0 : Z)
    (r0 : jsstring) :
  let best := fold_left most_common_step (entries f ks) (m0, r0) in
  (forall k, k ∈ ks -> f k <= fst best)
  /\ ((best = (m0, r0))
      \/ (m0 < fst best /\ snd best ∈ ks /\ f (snd best) = fst best
          /\ forall k1 k2, ks = k1 ++ k2 -> snd best ∉ k1 ->
               forall k, k ∈ k1 -> f k < fst best)).
Proof.
  revert m0 r0. induction ks as [|k ks IH]; intros m0 r0; cbn zeta.
  - split; [intros k Hk; inversion Hk | left; reflexivity].
  - cbn [map fold_left most_common_step fst].
    destruct (Z.ltb_spec m0 (f k)) as [Hlt|Hge].
    + destruct (IH (f k) k) as [Hall Hcase]. cbn zeta in Hall, Hcase.
      set (best := fold_left most_common_step (entries f ks) (f k, k)) in *.
      destruct Hcase as [Heq | (Hm & Hin & Hf & Hpre)].
      * rewrite Heq in *. cbn [fst snd] in *. split.
        -- intros k' Hk'. apply elem_of_cons in Hk' as [->|Hk'];
             [lia | apply Hall, Hk'].
        -- right. split; [exact Hlt|]. split; [apply list_elem_of_here|].
           split; [reflexivity|].
           intros k1 k2 Hsplit Hnot k' Hk'. destruct k1 as [|a k1];
             [inversion Hk'|].
           injection Hsplit as <- _. exfalso. apply Hnot, list_elem_of_here.
      * split.
        -- intros k' Hk'. apply elem_of_cons in Hk' as [->|Hk'];
             [lia | apply Hall, Hk'].
        -- right. split; [lia|]. split; [apply list_elem_of_further, Hin|].
           split; [exact Hf|].
           intros k1 k2 Hsplit Hnot k' Hk'. destruct k1 as [|a k1];
             [inversion Hk'|].
           injection Hsplit as <- Hsplit.
           apply elem_of_cons in Hk' as [->|Hk']; [lia|].
           apply (Hpre k1 k2 Hsplit); [|exact Hk'].
           intros H. apply Hnot, list_elem_of_further, H.
    + destruct (IH m0 r0) as [Hall Hcase]. cbn zeta in Hall, Hcase.
      set (best := fold_left most_common_step (entries f ks) (m0, r0)) in *.
      assert (Hmono : m0 <= fst best).
      { destruct Hcase as [-> | (Hm & _)]; cbn; lia. }
      split.
      * intros k' Hk'. apply elem_of_cons in Hk' as [->|Hk'];
          [lia | apply Hall, Hk'].
      * destruct Hcase as [Heq | (Hm & Hin & Hf & Hpre)]; [left; exact Heq|].
        right. split; [exact Hm|]. split; [apply list_elem_of_further, Hin|].
        split; [exact Hf|].
        intros k1 k2 Hsplit Hnot k' Hk'. destruct k1 as [|a k1];
          [inversion Hk'|].
        injection Hsplit as <- Hsplit.
        apply elem_of_cons in Hk' as [->|Hk']; [lia|].
        apply (Hpre k1 k2 Hsplit); [|exact Hk'].
        intros H. apply Hnot, list_elem_of_further, H.
Qed.

Lemma fold_left_concat {A B : Type} (f : A -> B -> A) (ls : list (list B))
    (a : A) :
  fold_left (fun a l => fold_left f l a) ls a = fold_left f (concat ls) a.
Proof.
  revert a. induction ls as [|l ls IH]; intros a; [reflexivity|].
  cbn. rewrite fold_left_app. apply IH.
Qed.

Lemma count_words_tokens (observations : list jsstring) :
  count_words observations
  = fold_left count_word (Spec.tokens observations) [].
Proof.
  unfold count_words, Spec.tokens. rewrite <- fold_left_concat.
  generalize (@nil (jsstring * Z)) as m.
  induction observations as [|obs observations IH]; intros m; [reflexivity|].
  cbn. apply IH.
Qed.

(** X6. [inductiveReason] returns the most frequent token of the
    observations (each observation split at single spaces): no token occurs
    more often, and every token that appears before its first occurrence
    occurs strictly less often, so a tie goes to the token seen first.
    With no token at all it returns the empty string. *)
Theorem inductive_most_frequent (observations : list jsstring) :
  let ws := Spec.tokens observations in
  let r := inductiveReason observations in
  (ws = [] -> r = [])
  /\ (ws <> [] ->
      exists before after,
        ws = before ++ r :: after
        /\ ~ In r before
        /\ (forall w, In w before ->
              Spec.occurrences w ws < Spec.occurrences r ws)
        /\ (forall w, In w ws ->
              Spec.occurrences w ws <= Spec.occurrences r ws)).
Proof.
  cbv zeta. unfold inductiveReason. rewrite count_words_tokens, counted.
  generalize (Spec.tokens observations) as ws. intros ws.
  split.
  - intros ->. reflexivity.
  - intros Hne.
    destruct (scan_first_max (fun w => Spec.occurrences w ws)
                (keys_after ws) 0 []) as [Hall Hcase].
    cbn zeta in Hall, Hcase.
    set (best := fold_left most_common_step _ _) in *.
    destruct Hcase as [Heq | (Hm & Hin & Hf & Hpre)].
    + exfalso. destruct ws as [|w ws']; [congruence|].
      assert (Hw : w ∈ w :: ws') by apply list_elem_of_here.
      pose proof (occurrences_present w (w :: ws') Hw) as Hpos.
      apply keys_after_elem, Hall in Hw.
      rewrite Heq in Hw. cbn [fst] in Hw. lia.
    + apply (proj1 (keys_after_elem ws _)) in Hin.
      apply list_elem_of_split_l in Hin as (before & after & Hsplit & Hnot).
      exists before, after. split; [exact Hsplit|]. split.
      * intros H. apply Hnot, list_elem_of_In, H.
      * split.
        -- intros w Hw. rewrite Hf.
           destruct (keys_after_app before (snd best :: after)) as [more Hk].
           rewrite <- Hsplit in Hk.
           apply (Hpre (keys_after before) more Hk).
           ++ intros H. apply (proj1 (keys_after_elem before _)) in H.
              exact (Hnot H).
           ++ apply keys_after_elem, list_elem_of_In, Hw.
        -- intros w Hw. rewrite Hf. apply Hall, keys_after_elem.
           apply list_elem_of_In, Hw.
Qed.

End CognitiveLayerMore.

(** ** ResonanceNetwork: scores, adoption and statistics *)

Section ResonanceNetworkMore.
Import ResonanceNetwork.

(** A loop that pushes one value per turn builds the list of the values. *)
Lemma push_loop {A : Type} (f : nat -> A) (n : nat) :
  for_loop n (fun i acc => acc ++ [f i]) [] = map f (seq 0 n).
Proof.
  induction n as [|n IH]; [reflexivity|].
  rewrite for_loop_S, IH, seq_S, map_app. reflexivity.
Qed.

Lemma for_loop_length_push {A : Type} (f : nat -> A) (n : nat) :
  length (for_loop n (fun i acc => acc ++ [f i]) []) = n.
Proof. rewrite push_loop, length_map. apply length_seq. Qed.

(** The score vector: one score per candidate, against the state before
    the call. *)
Lemma scores_map (patterns : list (list number)) (s : t) :
  fst (synchronizeVPUs patterns s) = map (resonance (vpuStates s)) patterns.
Proof.
  unfold synchronizeVPUs. cbn [fst].
  rewrite (push_loop
             (fun i => resonance (vpuStates s) (default [] (patterns !! i)))).
  apply list_eq. intros i.
  change (map ?f ?l !! i) with (fmap (M := list) f l !! i).
  rewrite !list_lookup_fmap.
  destruct (decide (i < length patterns)%nat) as [Hi|Hi].
  - rewrite lookup_seq_lt by exact Hi. cbn.
    destruct (patterns !! i) eqn:Hp; [reflexivity|].
    apply lookup_ge_None in Hp. lia.
  - rewrite lookup_seq_ge by lia.
    rewrite (lookup_ge_None_2 patterns) by lia. reflexivity.
Qed.

Lemma adopt_cells (pattern states : list number) :
  length (adopt pattern states) = length states
  /\ (forall i, (i < length pattern)%nat -> (i < length states)%nat ->
        adopt pattern states !! i = Some (fround (cell pattern i)))
  /\ (forall i, (length pattern <= i)%nat ->
        adopt pattern states !! i = states !! i).
Proof.
  unfold adopt.
  destruct (write_loop (fun i => fround (cell pattern i))
              (Nat.min (length pattern) (length states)) states)
    as (Hlen & Hin & Hout).
  split; [exact Hlen|]. split.
  - intros i Hp Hs. apply Hin; lia.
  - intros i Hi.
    destruct (decide (i < length states)%nat) as [Hs|Hs].
    + apply Hout. lia.
    + rewrite !lookup_ge_None_2 by lia. reflexivity.
Qed.

(** The history grows by one entry per call. *)
Lemma synchronize_history (patterns : list (list number)) (s : t) :
  length (syncHistory (snd (synchronizeVPUs patterns s)))
  = S (length (syncHistory s)).
Proof.
  unfold synchronizeVPUs. cbn [snd syncHistory].
  rewrite length_app. cbn. lia.
Qed.

(** Within the engine's argument limit the call completes as the
    sequential reading of the source says. *)
Lemma synchronize_within_limit (argument_limit : nat)
    (patterns : list (list number)) (s : t) :
  (length patterns <= argument_limit)%nat ->
  synchronizeVPUs_host argument_limit patterns s
  = (Returned (fst (synchronizeVPUs patterns s)),
     snd (synchronizeVPUs patterns s)).
Proof.
  intros Hlen. unfold synchronizeVPUs_host, synchronizeVPUs, Math_max_spread.
  rewrite for_loop_length_push.
  destruct (Nat.leb_spec (length patterns) argument_limit); [|lia].
  reflexivity.
Qed.

(** Beyond it the spread call throws before anything is written. *)
Lemma synchronize_beyond_limit (argument_limit : nat)
    (patterns : list (list number)) (s : t) :
  (argument_limit < length patterns)%nat ->
  synchronizeVPUs_host argument_limit patterns s = (RangeError, s).
Proof.
  intros Hlen. unfold synchronizeVPUs_host, Math_max_spread.
  rewrite for_loop_length_push.
  destruct (Nat.leb_spec (length patterns) argument_limit); [lia|].
  reflexivity.
Qed.

(** X7. On an engine that accepts the spread call [Math.max(...scores)],
    that is for a batch within the engine's argument limit,
    [synchronizeVPUs] returns one score per candidate, each computed
    against the state as it was before the call; the state vector keeps its
    length, and the history grows by exactly the returned score vector.
    For a batch beyond the limit the call throws a [RangeError] and leaves
    the state and the history as they were. *)
Theorem synchronize_shape (argument_limit : nat)
    (patterns : list (list number)) (s : t) :
  let r := synchronizeVPUs_host argument_limit patterns s in
  ((length patterns <= argument_limit)%nat ->
     exists scores,
       fst r = Returned scores
       /\ scores = map (resonance (vpuStates s)) patterns
       /\ length scores = length patterns
       /\ length (vpuStates (snd r)) = length (vpuStates s)
       /\ syncHistory (snd r) = syncHistory s ++ [scores])
  /\ ((argument_limit < length patterns)%nat ->
        fst r = RangeError /\ snd r = s).
Proof.
  cbv zeta. split.
  - intros Hlen. rewrite synchronize_within_limit by exact Hlen.
    cbn [fst snd]. exists (fst (synchronizeVPUs patterns s)).
    pose proof (scores_map patterns s) as Hs.
    split; [reflexivity|]. split; [exact Hs|].
    split; [rewrite Hs; apply length_map|]. split.
    + unfold synchronizeVPUs. cbn [snd vpuStates].
      destruct (indexOf _ _); [apply adopt_cells | reflexivity].
    + reflexivity.
  - intros Hlen. rewrite synchronize_beyond_limit by exact Hlen.
    split; reflexivity.
Qed.

(** [Math.max] of a list that holds a NaN is NaN. *)
Lemma max2_nan_l (x y : number) : is_nan x = true -> Math_max2 x y = x.
Proof. intros H. unfold Math_max2. rewrite H. reflexivity. Qed.

Lemma max2_nan_r (x y : number) :
  is_nan y = true -> is_nan (Math_max2 x y) = true.
Proof.
  intros H. unfold Math_max2. destruct (is_nan x) eqn:Hx; [exact Hx|].
  rewrite H. exact H.
Qed.

Lemma max_fold_nan (xs : list number) (acc : number) :
  is_nan acc = true \/ (exists x, In x xs /\ is_nan x = true) ->
  is_nan (fold_left Math_max2 xs acc) = true.
Proof.
  revert acc. induction xs as [|x xs IH]; intros acc [Hacc | (y & Hy & Hnan)].
  - exact Hacc.
  - destruct Hy.
  - cbn. apply IH. left. rewrite max2_nan_l by exact Hacc. exact Hacc.
  - cbn. apply IH. destruct Hy as [-> | Hy].
    + left. apply max2_nan_r, Hnan.
    + right. exists y. split; assumption.
Qed.

(** [indexOf] never finds a NaN. *)
Lemma eqb_nan_r (x v : number) : is_nan v = true -> (x =? v)%float = false.
Proof.
  intros Hv. rewrite FloatAxioms.eqb_spec.
  assert (Hsf : Prim2SF v = S754_nan)
    by (unfold Prim2SF; rewrite Hv; reflexivity).
  rewrite Hsf. destruct (Prim2SF x) as [?|?| |? ? ?]; reflexivity.
Qed.

Lemma indexOf_nan (xs : list number) (v : number) (i : nat) :
  is_nan v = true -> indexOf_from i xs v = None.
Proof.
  intros Hv. revert i. induction xs as [|x xs IH]; intros i; [reflexivity|].
  cbn. rewrite eqb_nan_r by exact Hv. apply IH.
Qed.

(** X8. A candidate of length zero anywhere in the batch has the score NaN
    (0 / 0), which makes [Math.max] NaN and [indexOf] fail: no candidate is
    adopted and the state vector stays as it was, whatever the other
    candidates are. *)
Theorem empty_candidate_blocks_update (patterns : list (list number)) (s : t) :
  In [] patterns ->
  (exists score, In score (fst (synchronizeVPUs patterns s))
                 /\ is_nan score = true)
  /\ vpuStates (snd (synchronizeVPUs patterns s)) = vpuStates s.
Proof.
  intros Hin.
  assert (Hnan : exists score, In score (fst (synchronizeVPUs patterns s))
                               /\ is_nan score = true).
  { exists (resonance (vpuStates s) []). split; [|reflexivity].
    rewrite scores_map. apply in_map, Hin. }
  split; [exact Hnan|].
  pose proof (scores_map patterns s) as Hs.
  unfold synchronizeVPUs in *. cbn [fst snd vpuStates] in *.
  unfold indexOf, Math_max. rewrite indexOf_nan; [reflexivity|].
  apply max_fold_nan. right. exact Hnan.
Qed.

Lemma empty_candidate_blocks_update_witness :
  In [] [[1%float]; []]
  /\ vpuStates (snd (synchronizeVPUs [[1%float]; []] (new 52)))
     = vpuStates (new 52).
Proof.
  assert (H : In (@nil number) [[1%float]; []]) by (right; left; reflexivity).
  split; [exact H|].
  exact (proj2 (empty_candidate_blocks_update [[1%float]; []] (new 52) H)).
Defined.

(** Nothing is below [-Infinity]. *)
Lemma not_below_neg_infinity (x : number) : (x <? neg_infinity)%float = false.
Proof.
  rewrite FloatAxioms.ltb_spec.
  change (Prim2SF neg_infinity) with (S754_infinity true).
  destruct (Prim2SF x) as [s|s| |s m e]; try destruct s; reflexivity.
Qed.

Lemma max_single (x : number) : is_nan x = false -> Math_max [x] = x.
Proof.
  intros Hx. unfold Math_max. cbn [fold_left]. unfold Math_max2.
  change (is_nan neg_infinity) with false. cbv iota. rewrite Hx.
  rewrite not_below_neg_infinity.
  destruct (neg_infinity <? x)%float; reflexivity.
Qed.

(** The state after a batch of one candidate with a score. *)
Lemma single_candidate_state (pattern : list number) (s : t) :
  is_nan (resonance (vpuStates s) pattern) = false ->
  vpuStates (snd (synchronizeVPUs [pattern] s)) = adopt pattern (vpuStates s).
Proof.
  intros Hscore. pose proof (scores_map [pattern] s) as Hs.
  unfold synchronizeVPUs in *. cbn [fst snd vpuStates] in *.
  rewrite Hs. cbn [map]. rewrite max_single by exact Hscore.
  unfold indexOf. cbn [indexOf_from].
  unfold is_nan in Hscore. apply negb_false_iff in Hscore.
  rewrite Hscore. reflexivity.
Qed.

(** X9. A single candidate whose score is a number (not NaN) is always
    adopted: the units it covers hold its values rounded to binary32, and
    the units past its end keep their values. *)
Theorem single_candidate_adopted (pattern : list number) (s : t) :
  is_nan (resonance (vpuStates s) pattern) = false ->
  let s' := snd (synchronizeVPUs [pattern] s) in
  (forall i, (i < length pattern)%nat -> (i < length (vpuStates s))%nat ->
     vpuStates s' !! i = Some (fround (cell pattern i)))
  /\ (forall i, (length pattern <= i)%nat ->
        vpuStates s' !! i = vpuStates s !! i).
Proof.
  intros Hscore. cbv zeta.
  rewrite single_candidate_state by exact Hscore.
  destruct (adopt_cells pattern (vpuStates s)) as (_ & Hin & Hout).
  split; assumption.
Qed.

Lemma single_candidate_adopted_witness :
  is_nan (resonance (vpuStates (new 52)) [0.1%float]) = false
  /\ vpuStates (snd (synchronizeVPUs [[0.1%float]] (new 52))) !! 0%nat
     = Some (fround (cell [0.1%float] 0)).
Proof.
  split; [reflexivity|].
  apply (single_candidate_adopted [0.1%float] (new 52)); [reflexivity | | ];
    cbn; lia.
Defined.

(** X10. [getStats()] of a new network of [n] units reports [n] units, the
    average 0 and no history.  After a call of [synchronizeVPUs] that
    returns, it reports the same unit count, one more history entry, and
    as [avgResonance] the scores of that call added up from 0 in order and
    divided by their number: earlier batches play no part, and an empty
    batch makes it NaN (0 / 0). *)
Theorem average_resonance (argument_limit : nat)
    (patterns : list (list number)) (s : t) (n : nat) :
  getStats (new n) = (n, 0%float, 0%nat)
  /\ ((length patterns <= argument_limit)%nat ->
      exists scores s',
        synchronizeVPUs_host argument_limit patterns s = (Returned scores, s')
        /\ getStats s'
           = (length (vpuStates s),
              (fold_left (fun a b => a + b) scores 0 / nat2F (length patterns))
                %float,
              S (length (syncHistory s)))
        /\ (patterns = [] -> exists avg,
              getStats s' = (length (vpuStates s), avg,
                             S (length (syncHistory s)))
              /\ is_nan avg = true)).
Proof.
  split.
  - unfold getStats, new. cbn [vpuStates syncHistory length].
    rewrite repeat_length. reflexivity.
  - intros Hlen. rewrite synchronize_within_limit by exact Hlen.
    exists (fst (synchronizeVPUs patterns s)),
      (snd (synchronizeVPUs patterns s)).
    split; [reflexivity|].
    pose proof (scores_map patterns s) as Hs.
    assert (Hstats :
      getStats (snd (synchronizeVPUs patterns s))
      = (length (vpuStates s),
         (fold_left (fun a b => a + b) (fst (synchronizeVPUs patterns s)) 0
          / nat2F (length patterns))%float,
         S (length (syncHistory s)))).
    { unfold getStats. rewrite synchronize_history.
      assert (Hn : length (vpuStates (snd (synchronizeVPUs patterns s)))
                   = length (vpuStates s)).
      { unfold synchronizeVPUs. cbn [snd vpuStates].
        destruct (indexOf _ _); [apply adopt_cells | reflexivity]. }
      rewrite Hn. f_equal. f_equal.
      unfold calculateAvgResonance, synchronizeVPUs.
      cbn [fst snd syncHistory]. rewrite last_snoc.
      rewrite for_loop_length_push. reflexivity. }
    split; [exact Hstats|].
    intros ->. eexists. split; [exact Hstats|]. reflexivity.
Qed.

End ResonanceNetworkMore.

(** ** SparseTensorRing: what [compress] keeps and what it forgets *)

Section SparseTensorRingMore.
Import SparseTensorRing.

Variable cosf : number -> number.

(** Is coefficient [i] of [decomposed] kept by the 0.01 threshold? *)
#[local] Abbreviation kept decomposed :=
  (fun i : nat => gt (Math_abs (cell decomposed i)) 0.01%float = true).

Lemma repeat_lookup {A : Type} (x : A) (n j : nat) :
  (j < n)%nat -> repeat x n !! j = Some x.
Proof.
  revert j. induction n as [|n IH]; intros j Hj; [lia|].
  destruct j as [|j]; [reflexivity|]. cbn. apply IH. lia.
Qed.

(** The threshold loop, as a filter over the coefficient indices. *)
Lemma extract_loop (decomposed : list number) (n : nat) (mask : list Z) :
  for_loop n
    (fun i '(sparse, mask) =>
       if gt (Math_abs (cell decomposed i)) 0.01%float
       then (sparse ++ [nat2F i; cell decomposed i], <[i := 1]> mask)
       else (sparse, mask))
    ([], mask)
  = (concat (map (fun i => [nat2F i; cell decomposed i])
               (filter (kept decomposed) (seq 0 n))),
     fold_left (fun mask i => <[i := 1]> mask)
       (filter (kept decomposed) (seq 0 n)) mask).
Proof.
  induction n as [|n IH]; [reflexivity|].
  rewrite for_loop_S, IH, seq_S, filter_app, filter_cons, filter_nil.
  cbn [Nat.add].
  destruct (gt (Math_abs (cell decomposed n)) 0.01%float) eqn:Hk.
  - rewrite decide_True by reflexivity.
    rewrite map_app, concat_app, fold_left_app. cbn. rewrite ?app_nil_r.
    reflexivity.
  - rewrite decide_False by discriminate. rewrite ?app_nil_r. reflexivity.
Qed.

Lemma decomposition_length (s : t) (tensor : list number) :
  length (tensorDecomposition cosf s tensor) = rankBound s.
Proof.
  unfold tensorDecomposition. rewrite for_loop_length.
  - apply repeat_length.
  - intros i l. apply length_insert.
Qed.

(** Setting mask bits, one index at a time. *)
Lemma set_bits (indices : list nat) (mask : list Z) :
  let mask' := fold_left (fun mask i => <[i := 1]> mask) indices mask in
  length mask' = length mask
  /\ forall j, mask' !! j
               = if decide (j ∈ indices /\ (j < length mask)%nat)
                 then Some 1 else mask !! j.
Proof.
  revert mask. induction indices as [|i indices IH]; intros mask; cbn zeta.
  - split; [reflexivity|]. intros j.
    rewrite decide_False; [reflexivity|].
    intros [H _]. inversion H.
  - cbn [fold_left]. destruct (IH (<[i := 1]> mask)) as [Hlen Hget].
    cbn zeta in Hlen, Hget. rewrite length_insert in Hlen, Hget.
    split; [exact Hlen|]. intros j. rewrite Hget.
    destruct (decide (j ∈ indices /\ (j < length mask)%nat))
      as [[Hin Hj]|Hno].
    + rewrite decide_True
        by (split; [apply list_elem_of_further, Hin | exact Hj]).
      reflexivity.
    + destruct (decide (i = j)) as [->|Hne].
      * destruct (decide (j < length mask)%nat) as [Hj|Hj].
        -- rewrite decide_True by (split; [apply list_elem_of_here | exact Hj]).
           apply list_lookup_insert_eq, Hj.
        -- rewrite decide_False by (intros [_ H]; contradiction).
           rewrite !lookup_ge_None_2; [reflexivity | lia |].
           rewrite length_insert. lia.
      * rewrite list_lookup_insert_ne by exact Hne.
        rewrite decide_False; [reflexivity|].
        intros [Hin Hj]. apply elem_of_cons in Hin as [Heq|Hin];
          [congruence|].
        apply Hno. split; assumption.
Qed.

(** [compress], with its loops read as a filter. *)
Lemma compress_filter (text : jsstring) (s : t) :
  let decomposed := tensorDecomposition cosf s (encodeToTensor s text) in
  let indices := filter (kept decomposed) (seq 0 (rankBound s)) in
  compress cosf text s
  = (concat (map (fun i => [nat2F i; cell decomposed i]) indices),
     {| ringDimension := ringDimension s; rankBound := rankBound s;
        sparsityMask :=
          fold_left (fun mask i => <[i := 1]> mask) indices
            (sparsityMask s) |}).
Proof.
  cbv zeta. unfold compress, extractSparse.
  rewrite extract_loop, decomposition_length. reflexivity.
Qed.

(** X11. Characters past [ringDimension] do not reach the compressor:
    compressing a text and compressing its first [ringDimension] code units
    give the same coefficients and the same object. *)
Theorem compress_ignores_tail (text : jsstring) (s : t) :
  compress cosf text s = compress cosf (take (ringDimension s) text) s.
Proof.
  assert (Henc : encodeToTensor s text
                 = encodeToTensor s (take (ringDimension s) text)).
  { unfold encodeToTensor. rewrite length_take.
    replace (Nat.min (Nat.min (ringDimension s) (length text))
               (ringDimension s))
      with (Nat.min (length text) (ringDimension s)) by lia.
    apply for_loop_ext. intros i tensor Hi.
    unfold charCodeAt. rewrite lookup_take_lt by lia. reflexivity. }
  unfold compress. rewrite Henc. reflexivity.
Qed.

(** X12. The result of [compress] is a sequence of (index, value) pairs:
    the indices are those coefficients of the decomposition whose magnitude
    exceeds 0.01, in increasing order and each below [rankBound]; each is
    followed by its coefficient.  So the result has an even length of at
    most [2 * rankBound]. *)
Theorem compress_pairs (text : jsstring) (s : t) :
  let decomposed := tensorDecomposition cosf s (encodeToTensor s text) in
  let sparse := fst (compress cosf text s) in
  exists indices,
    sparse = concat (map (fun i => [nat2F i; cell decomposed i]) indices)
    /\ indices = filter (fun i => gt (Math_abs (cell decomposed i)) 0.01%float
                                  = true)
                   (seq 0 (rankBound s))
    /\ sublist indices (seq 0 (rankBound s))
    /\ length sparse = (2 * length indices)%nat
    /\ (length sparse <= 2 * rankBound s)%nat.
Proof.
  cbv zeta. rewrite compress_filter. cbn [fst].
  set (decomposed := tensorDecomposition cosf s (encodeToTensor s text)).
  set (indices := filter (kept decomposed) (seq 0 (rankBound s))).
  assert (Hlen : forall l : list nat,
            length (concat (map (fun i => [nat2F i; cell decomposed i]) l))
            = (2 * length l)%nat).
  { induction l as [|i l IH]; [reflexivity|]. cbn. rewrite IH. lia. }
  assert (Hsub : sublist indices (seq 0 (rankBound s)))
    by apply sublist_filter.
  exists indices. split; [reflexivity|]. split; [reflexivity|].
  split; [exact Hsub|]. split; [apply Hlen|].
  rewrite Hlen. apply sublist_length in Hsub. rewrite length_seq in Hsub. lia.
Qed.

(** X13. [compress] never clears the sparsity mask: the dimensions and the
    mask's length are unchanged, a position that was 1 stays 1, and a
    position changes only by becoming 1, which happens exactly for the
    indices below the mask's length that the call kept. *)
Theorem compress_mask_accumulates (text : jsstring) (s : t) :
  let decomposed := tensorDecomposition cosf s (encodeToTensor s text) in
  let s' := snd (compress cosf text s) in
  ringDimension s' = ringDimension s
  /\ rankBound s' = rankBound s
  /\ length (sparsityMask s') = length (sparsityMask s)
  /\ (forall i, sparsityMask s !! i = Some 1 -> sparsityMask s' !! i = Some 1)
  /\ (forall i, sparsityMask s' !! i <> sparsityMask s !! i ->
        sparsityMask s' !! i = Some 1
        /\ (i < rankBound s)%nat
        /\ gt (Math_abs (cell decomposed i)) 0.01%float = true).
Proof.
  cbv zeta. rewrite compress_filter.
  cbn [snd ringDimension rankBound sparsityMask].
  set (decomposed := tensorDecomposition cosf s (encodeToTensor s text)).
  destruct (set_bits (filter (kept decomposed) (seq 0 (rankBound s)))
              (sparsityMask s)) as [Hlen Hget]. cbn zeta in Hlen, Hget.
  split; [reflexivity|]. split; [reflexivity|]. split; [exact Hlen|]. split.
  - intros i Hi. rewrite Hget. destruct (decide _); [reflexivity | exact Hi].
  - intros i Hi. rewrite Hget in Hi |- *.
    destruct (decide _) as [[Hin _]|]; [|congruence].
    apply list_elem_of_filter in Hin as [Hk Hseq].
    apply elem_of_seq in Hseq. repeat split; [lia | exact Hk].
Qed.

End SparseTensorRingMore.

(** *** The empty text *)

(** Zero divided by any number is a zero or NaN. *)
Lemma zero_div_any (y : number) :
  (0 / y)%float = 0%float \/ (0 / y)%float = (-0)%float
  \/ (0 / y)%float = nan.
Proof.
  rewrite <- (SF2Prim_Prim2SF (0 / y)), FloatAxioms.div_spec.
  change (Prim2SF 0) with (S754_zero false).
  destruct (Prim2SF y) as [s|s| |s m e]; cbn;
    try destruct s; auto.
Qed.

Section EmptyText.
Import SparseTensorRing.

Variable cosf : number -> number.
Variable s : t.
Hypothesis Hhost : Spec.host_cos cosf s.

(** Every projection of the all-zero signal sums to zero. *)
Lemma zero_projection (i n : nat) :
  (i < rankBound s)%nat -> (n <= ringDimension s)%nat ->
  for_loop n
    (fun j sum =>
       (sum + cell (repeat 0%float (ringDimension s)) j
              * cosf (angle s (nat2F i) (nat2F j)))%float)
    0%float = 0%float.
Proof.
  intros Hi Hn. destruct Hhost as [_ Hfin].
  induction n as [|n IH]; [reflexivity|].
  rewrite for_loop_S, IH by lia.
  unfold cell. rewrite repeat_lookup by lia. cbn [default from_option id].
  destruct (zero_times_finite (cosf (angle s (nat2F i) (nat2F n))))
    as [-> | ->]; [apply Hfin; lia | reflexivity | reflexivity].
Qed.

(** No coefficient of the all-zero signal passes the threshold. *)
Lemma zero_decomposition_dropped (i : nat) :
  (i < rankBound s)%nat ->
  gt (Math_abs
        (cell (tensorDecomposition cosf s (repeat 0%float (ringDimension s)))
           i)) 0.01%float = false.
Proof.
  intros Hi. unfold tensorDecomposition.
  set (v := fround
              (0 / nat2F (length (repeat 0%float (ringDimension s))))%float).
  rewrite (for_loop_ext (rankBound s) _
             (fun i compressed => <[i := v]> compressed)).
  - destruct (write_loop (fun _ => v) (rankBound s)
                (repeat 0%float (rankBound s))) as (_ & Hin & _).
    unfold cell. rewrite Hin by (rewrite ?repeat_length; lia).
    cbn [default from_option id]. subst v.
    destruct (zero_div_any
                (nat2F (length (repeat 0%float (ringDimension s)))))
      as [-> | [-> | ->]]; reflexivity.
  - intros k compressed Hk. cbv zeta. rewrite repeat_length.
    rewrite zero_projection by lia. subst v. rewrite repeat_length.
    reflexivity.
Qed.

(** X14. The empty text compresses to no coefficient at all and leaves the
    object untouched, and nothing decompresses to the empty text: the round
    trip of the empty text is the empty text. *)
Theorem empty_text_roundtrip :
  compress cosf [] s = ([], s)
  /\ decompress cosf [] s = []
  /\ decompress cosf (fst (compress cosf [] s)) (snd (compress cosf [] s)) = [].
Proof.
  assert (Hdec : decompress cosf [] s = []).
  { unfold decompress. rewrite decode_filter.
    unfold reconstructTensor. cbn [length Nat.div2]. rewrite for_loop_0.
    induction (ringDimension s) as [|n IH]; [reflexivity|]. exact IH. }
  assert (Hcomp : compress cosf [] s = ([], s)).
  { rewrite compress_filter.
    change (encodeToTensor s []) with (repeat 0%float (ringDimension s)).
    assert (Hnone : filter
              (fun i : nat =>
                 gt (Math_abs
                       (cell (tensorDecomposition cosf s
                                (repeat 0%float (ringDimension s))) i))
                   0.01%float = true)
              (seq 0 (rankBound s)) = []).
    { apply elem_of_nil_inv. intros i Hi.
      apply list_elem_of_filter in Hi as [Hk Hi]. apply elem_of_seq in Hi.
      rewrite zero_decomposition_dropped in Hk by lia. discriminate Hk. }
    rewrite Hnone. destruct s. reflexivity. }
  split; [exact Hcomp|]. split; [exact Hdec|].
  rewrite Hcomp. exact Hdec.
Qed.

End EmptyText.

Lemma empty_text_roundtrip_witness :
  Spec.host_cos cos_ref (SparseTensorRing.new 32 4)
  /\ SparseTensorRing.compress cos_ref [] (SparseTensorRing.new 32 4)
     = ([], SparseTensorRing.new 32 4).
Proof.
  split; [exact cos_ref_host|].
  exact (proj1 (empty_text_roundtrip cos_ref (SparseTensorRing.new 32 4)
                  cos_ref_host)).
Defined.

(** *** Statistics of the default ring *)

Section DefaultRing.
Import SparseTensorRing.

Variable cosf : number -> number.

(** In the ring of dimension 32 and rank 4 only the first four mask
    positions are ever set. *)
Lemma default_mask (texts : list jsstring) :
  let s := Spec.ring_after cosf 32 4 texts in
  ringDimension s = 32%nat /\ rankBound s = 4%nat
  /\ exists a b c d : bool,
       sparsityMask s
       = map (fun x : bool => if x then 1 else 0) [a; b; c; d]
           ++ repeat 0 28.
Proof.
  unfold Spec.ring_after.
  assert (Hnew : ringDimension (new 32 4) = 32%nat
                 /\ rankBound (new 32 4) = 4%nat
                 /\ exists a b c d : bool,
                      sparsityMask (new 32 4)
                      = map (fun x : bool => if x then 1 else 0) [a; b; c; d]
                          ++ repeat 0 28).
  { split; [reflexivity|]. split; [reflexivity|].
    exists false, false, false, false. reflexivity. }
  revert Hnew. generalize (new 32 4) as s.
  induction texts as [|text texts IH]; intros s Hs; [exact Hs|].
  cbn [fold_left]. apply IH. clear IH.
  destruct Hs as (Hdim & Hrank & a & b & c & d & Hmask).
  rewrite compress_filter. cbn [snd ringDimension rankBound sparsityMask].
  split; [exact Hdim|]. split; [exact Hrank|].
  rewrite Hrank, Hmask. cbn [seq].
  rewrite !filter_cons, filter_nil.
  repeat match goal with
         | |- context [decide ?P] => destruct (decide P)
         end; cbn [fold_left];
    first [ exists a, b, c, d; reflexivity
          | exists a, b, c, true; reflexivity
          | exists a, b, true, d; reflexivity
          | exists a, b, true, true; reflexivity
          | exists a, true, c, d; reflexivity
          | exists a, true, c, true; reflexivity
          | exists a, true, true, d; reflexivity
          | exists a, true, true, true; reflexivity
          | exists true, b, c, d; reflexivity
          | exists true, b, c, true; reflexivity
          | exists true, b, true, d; reflexivity
          | exists true, b, true, true; reflexivity
          | exists true, true, c, d; reflexivity
          | exists true, true, c, true; reflexivity
          | exists true, true, true, d; reflexivity
          | exists true, true, true, true; reflexivity ].
Qed.

(** X15. In the default ring (dimension 32, rank 4), whatever texts have
    been compressed, at most four mask positions are active, the reported
    sparsity is at least 87.5, and [getStats().compressionRatio] is one of
    [32.00x], [16.00x], [10.67x] and [8.00x]. *)
Theorem default_ring_statistics (texts : list jsstring) :
  let s := Spec.ring_after cosf 32 4 texts in
  (activeIndices s <= 4)%nat
  /\ (87.5 <=? sparsity s)%float = true
  /\ In (compressionRatio s)
       [lit "32.00x"; lit "16.00x"; lit "10.67x"; lit "8.00x"].
Proof.
  cbv zeta.
  destruct (default_mask texts) as (Hdim & _ & a & b & c & d & Hmask).
  cbv zeta in Hdim, Hmask.
  unfold compressionRatio, sparsity, activeIndices. rewrite Hdim, Hmask.
  destruct a, b, c, d;
    (split; [vm_compute; lia|]; split; [vm_compute; reflexivity|];
     vm_compute; repeat (first [left; reflexivity | right])).
Qed.

End DefaultRing.

(** ** HybridCore: what a run of the pipeline leaves behind *)

Section HybridCoreMore.
Import HybridCore.

Variable cosf : number -> number.

(** The object after [process], field by field. *)
Lemma process_state (processingTime : number) (input : jsstring) (c : t) :
  let compressed := fst (SparseTensorRing.compress cosf input (tensorRing c)) in
  let vpu' := TernaryVPU.quantizeToTernary compressed (ternaryVPU c) in
  snd (process cosf processingTime input c)
  = {| tensorRing := snd (SparseTensorRing.compress cosf input (tensorRing c));
       ternaryVPU := vpu';
       resonance :=
         snd (ResonanceNetwork.synchronizeVPUs
                [[TernaryVPU.computeOutput vpu']] (resonance c));
       processingHistory := processingHistory c ++ [processingTime] |}.
Proof.
  cbv zeta. unfold process, TernaryVPU.process.
  destruct (SparseTensorRing.compress cosf input (tensorRing c))
    as [compressed ring']. cbn [fst snd].
  destruct (ResonanceNetwork.synchronizeVPUs _ _) as [synced res'].
  reflexivity.
Qed.

(** X16. After any sequence of calls the orchestrator has recorded exactly
    the measured times, in order, so [getStatus().totalProcessed] is the
    number of calls; the synchronizer has one history entry per call; and
    the tensor ring is in the state it would have reached by compressing
    the same inputs on its own. *)
Theorem run_bookkeeping (calls : list (number * jsstring)) :
  let c := Spec.core_after cosf calls in
  processingHistory c = map fst calls
  /\ totalProcessed c = length calls
  /\ length (ResonanceNetwork.syncHistory (resonance c)) = length calls
  /\ tensorRing c = Spec.ring_after cosf 32 4 (map snd calls).
Proof.
  cbv zeta. unfold totalProcessed.
  induction calls as [|call calls IH] using rev_ind.
  - repeat split.
  - destruct IH as (Hh & Hn & Hs & Hr).
    unfold Spec.core_after, Spec.ring_after in *.
    rewrite !map_app, !fold_left_app. cbn [fold_left map].
    rewrite process_state. cbn [processingHistory resonance tensorRing].
    rewrite Hh, Hr, !length_app, length_map. cbn [length].
    rewrite synchronize_history, Hs. repeat split; lia.
Qed.

(** The running sum of at most 52 unit states is the exact integer sum. *)
Lemma ternary_sum_exact (l : list Z) (k0 : Z) :
  Forall (fun v => v = -1 \/ v = 0 \/ v = 1) l ->
  Z.abs k0 + Z.of_nat (length l) <= 52 ->
  fold_left (fun sum v => (sum + Z2F v)%float) l (Z2F k0)
  = Z2F (fold_left Z.add l k0)
  /\ Z.abs (fold_left Z.add l k0) <= Z.abs k0 + Z.of_nat (length l).
Proof.
  revert k0. induction l as [|v l IH]; intros k0 Hl Hk0.
  - cbn in *. split; [reflexivity | lia].
  - apply Forall_cons in Hl as [Hv Hl]. cbn [length] in Hk0.
    cbn [fold_left]. rewrite unit_sum_step by lia.
    destruct (IH (k0 + v) Hl ltac:(lia)) as [Hsum Hk].
    split; [exact Hsum | cbn [length]; lia].
Qed.

(** In a well-formed orchestrator the quantizer's output is the integer
    sum of its units over 52. *)
Lemma output_is_sum_over_52 (vpu : TernaryVPU.t) :
  TernaryVPU.numVPUs vpu = 52%nat -> TernaryVPU.wf vpu ->
  TernaryVPU.ternary_states vpu ->
  TernaryVPU.computeOutput vpu
  = (Z2F (Spec.unit_sum (TernaryVPU.vpuStates vpu)) / nat2F 52)%float
  /\ -52 <= Spec.unit_sum (TernaryVPU.vpuStates vpu) <= 52.
Proof.
  intros Hn Hwf Htern. rewrite computeOutput_mean by exact Hwf.
  unfold TernaryVPU.wf in Hwf. rewrite Hn in Hwf.
  unfold Spec.arithmetic_mean, Spec.unit_sum.
  destruct (ternary_sum_exact (TernaryVPU.vpuStates vpu) 0 Htern
              ltac:(lia)) as [Hsum Hk].
  change (Z2F 0) with 0%float in Hsum. rewrite Hsum, Hwf.
  split; [reflexivity | lia].
Qed.

(** Against a unit 0 that holds an earlier output, the score of an output
    is a number. *)
Lemma output_score_is_number (k k' : Z) :
  -52 <= k <= 52 -> -52 <= k' <= 52 ->
  is_nan
    (ResonanceNetwork.resonance
       (fround (Z2F k / nat2F 52) :: repeat 0%float 51)
       [(Z2F k' / nat2F 52)%float]) = false.
Proof.
  intros Hk Hk'.
  assert (Hr : -52 <= k < -52 + Z.of_nat 105) by lia.
  assert (Hr' : -52 <= k' < -52 + Z.of_nat 105) by lia.
  pose proof (Zrange_forallb
    (fun k =>
       forallb
         (fun k' =>
            negb (is_nan
                    (ResonanceNetwork.resonance
                       (fround (Z2F k / nat2F 52) :: repeat 0%float 51)
                       [(Z2F k' / nat2F 52)%float])))
         (map (fun i => -52 + Z.of_nat i) (seq 0 105)))
    (-52) 105 ltac:(vm_compute; reflexivity) k Hr) as Hrow.
  apply (Zrange_forallb _ (-52) 105 Hrow k') in Hr'.
  apply negb_true_iff in Hr'. exact Hr'.
Qed.

(** What the constructor establishes and [process] keeps of the
    synchronizer: unit 0 holds the binary32 rounding of some [k / 52], the
    other 51 units are zero. *)
Let resonance_ok (c : t) : Prop :=
  exists k, -52 <= k <= 52
    /\ ResonanceNetwork.vpuStates (resonance c)
       = fround (Z2F k / nat2F 52) :: repeat 0%float 51.

Lemma process_resonance (processingTime : number) (input : jsstring) (c : t) :
  wf c -> resonance_ok c ->
  let c' := snd (process cosf processingTime input c) in
  let k' := Spec.unit_sum (TernaryVPU.vpuStates (ternaryVPU c')) in
  wf c' /\ -52 <= k' <= 52
  /\ fst (process cosf processingTime input c)
     = Str (numberToString (Z2F k' / nat2F 52)%float)
  /\ ResonanceNetwork.vpuStates (resonance c')
     = fround (Z2F k' / nat2F 52) :: repeat 0%float 51.
Proof.
  intros Hwf (k & Hk & Hres). cbv zeta.
  pose proof (process_wf cosf processingTime input c Hwf) as Hwf'.
  split; [exact Hwf'|].
  rewrite process_output, rule_never_fires.
  rewrite process_state in *. cbn [ternaryVPU resonance] in *.
  unfold TernaryVPU.process. cbn [fst].
  destruct Hwf' as (Hn' & Hwfv' & Htern'). cbn [ternaryVPU] in *.
  destruct (output_is_sum_over_52 _ Hn' Hwfv' Htern') as [Hout Hsum].
  split; [exact Hsum|]. rewrite Hout. split; [reflexivity|].
  rewrite single_candidate_state
    by (rewrite Hres; apply output_score_is_number; assumption).
  rewrite Hres. reflexivity.
Qed.

(** X17. Whatever calls came before, [process] returns the decimal string
    of [k / 52], where [k] is the exact integer sum of the quantizer's
    units after the call (the number of +1 units minus the number of -1
    units); and although the synchronizer's scores are discarded, the call
    leaves that number, rounded to binary32, in unit 0 of the synchronizer,
    whose other 51 units stay zero for ever. *)
Theorem process_leaves_output_in_unit_0 (calls : list (number * jsstring))
    (processingTime : number) (input : jsstring) :
  let c := Spec.core_after cosf calls in
  let c' := snd (process cosf processingTime input c) in
  let k := Spec.unit_sum (TernaryVPU.vpuStates (ternaryVPU c')) in
  -52 <= k <= 52
  /\ fst (process cosf processingTime input c)
     = Str (numberToString (Z2F k / nat2F 52)%float)
  /\ ResonanceNetwork.getVPUState (resonance c')
     = fround (Z2F k / nat2F 52) :: repeat 0%float 51.
Proof.
  cbv zeta.
  assert (Hinv : wf (Spec.core_after cosf calls)
                 /\ resonance_ok (Spec.core_after cosf calls)).
  { unfold Spec.core_after.
    induction calls as [|call calls [Hwf Hok]] using rev_ind.
    - split; [exact new_wf|]. exists 0. split; [lia | reflexivity].
    - rewrite fold_left_app. cbn [fold_left].
      destruct (process_resonance (fst call) (snd call) _ Hwf Hok)
        as (Hwf' & Hk' & _ & Hres').
      split; [exact Hwf'|]. eexists. split; [exact Hk' | exact Hres']. }
  destruct Hinv as [Hwf Hok].
  destruct (process_resonance processingTime input _ Hwf Hok)
    as (_ & Hk & Hout & Hres).
  split; [exact Hk|]. split; [exact Hout | exact Hres].
Qed.

End HybridCoreMore.

(** ** NeuralModeController: levels, flags and the other modes *)

Section NeuralModeControllerMore.
Import NeuralModeController.

(** X18. The consciousness level of a controller is always between 0 and
    1: the constructor, [setMode], [resetConsciousness] and [process] in
    any mode keep it there. *)
Theorem level_bounded (s : t) :
  reachable s ->
  (0 <=? consciousnessLevel s)%float = true
  /\ (consciousnessLevel s <=? 1)%float = true.
Proof.
  intros Hs. destruct (reachable_level s Hs) as (k & Hk & ->).
  assert (Hall : forallb
                   (fun k => (0 <=? level_after k)%float
                             && (level_after k <=? 1)%float)
                   (seq 0 101) = true) by (vm_compute; reflexivity).
  rewrite forallb_forall in Hall.
  apply andb_true_iff, Hall, in_seq. lia.
Qed.

Lemma level_bounded_witness :
  reachable new /\ (consciousnessLevel new <=? 1)%float = true.
Proof.
  split; [exact reach_new|]. exact (proj2 (level_bounded new reach_new)).
Defined.

(** X19. The feature flags of the active mode's configuration describe
    what [process] does, although no code reads them: the level moves (by
    the capped step) exactly in the modes that set
    [useConsciousnessTracking], the result carries a [qualiaState] exactly
    in the modes that set [useQualia] and a [memoryState] exactly in those
    that set [useTemporal], the output is the spike rendering in the mode
    that sets [useSpiking], no mode requires a GPU, and [process] never
    changes the mode. *)
Theorem flags_describe_process (input : jsstring) (context : option Context)
    (s : t) :
  let config := getModeConfig s in
  let r := fst (process input context s) in
  let s' := snd (process input context s) in
  consciousnessLevel s'
  = (if useConsciousnessTracking config
     then Math_min 1.0%float (consciousnessLevel s + 0.01)%float
     else consciousnessLevel s)
  /\ (is_Some (qualiaState r) <-> useQualia config = true)
  /\ (is_Some (memoryState r) <-> useTemporal config = true)
  /\ (useSpiking config = true -> output r = processSpiking input)
  /\ gpuRequired config = false
  /\ currentMode s' = currentMode s.
Proof.
  cbv zeta. unfold getModeConfig, process, processHybrid, processConscious.
  destruct s as [m level]. cbn [currentMode].
  destruct m; cbn; repeat split; intros H;
    first [ discriminate H | exact (mk_is_Some _ _ eq_refl)
          | apply is_Some_None in H; contradiction | reflexivity ].
Qed.

(** The spike rendering, one code unit per input code unit. *)
Lemma spiking_map (input : jsstring) :
  processSpiking input = map (fun c => if 127 <? c then 49 else 48) input.
Proof.
  unfold processSpiking, spikesToOutput, processSpikes, convertToSpikes.
  induction input as [|c input IH]; [reflexivity|].
  cbn [map concat]. rewrite IH. destruct (127 <? c); reflexivity.
Qed.

(** X20. In spiking mode the output has exactly one character per input
    code unit: [1] where the code unit exceeds 127 and [0] elsewhere; the
    character [x] of the renderer never appears, and the controller is
    unchanged. *)
Theorem spiking_output (input : jsstring) (context : option Context) (s : t) :
  let r := fst (process input context (setMode SPIKING s)) in
  output r = map (fun c => if 127 <? c then 49 else 48) input
  /\ length (output r) = length input
  /\ Forall (fun c => c = 48 \/ c = 49) (output r)
  /\ snd (process input context (setMode SPIKING s)) = setMode SPIKING s.
Proof.
  cbv zeta. cbn [process setMode currentMode fst snd initial_result output].
  rewrite spiking_map. split; [reflexivity|]. split; [apply length_map|].
  split; [|reflexivity].
  induction input as [|c input IH]; constructor; [|exact IH].
  destruct (127 <? c); auto.
Qed.

Lemma slice_last_app (k : nat) (a b : jsstring) :
  (k <= length b)%nat -> slice_last k (a ++ b) = slice_last k b.
Proof.
  intros Hk. unfold slice_last. rewrite length_app.
  replace (length a + length b - k)%nat
    with (length a + (length b - k))%nat by lia.
  apply drop_app_add.
Qed.

(** X21. In hybrid mode the anticipation carries nothing of the input: the
    output always ends with [ (introspection: 0.5)], so its last 10 code
    units, and with them the anticipation, are the same for every input,
    every memory and every controller state. *)
Theorem hybrid_anticipation_constant (input : jsstring)
    (context : option Context) (s : t) :
  let r := fst (process input context (setMode HYBRID s)) in
  anticipation r = Some (lit "anticipated: tion: 0.5)")
  /\ exists before, output r = before ++ lit " (introspection: 0.5)".
Proof.
  cbv zeta.
  cbn [process setMode currentMode processHybrid processConscious fst
       anticipation output processTemporal].
  unfold generateAnticipation, applyTemporalProcessing, consolidateMemory,
    applyMetaCognitiveAttention, calculateIntrospectionGate.
  cbv zeta.
  change (numberToString 0.5%float) with (lit "0.5").
  set (recalled := recallMemory (context_memory context)).
  set (shown := numbersToString (content (applyQualiaEncoding input))).
  assert (Hout : recalled ++ [32; 8594; 32]
                   ++ shown ++ lit " (introspection: " ++ lit "0.5" ++ lit ")"
                 = (recalled ++ [32; 8594; 32] ++ shown)
                     ++ lit " (introspection: 0.5)").
  { rewrite <- !app_assoc. reflexivity. }
  rewrite Hout. split.
  - rewrite slice_last_app by (cbn; lia). reflexivity.
  - eexists. reflexivity.
Qed.

(** The level after [k] hybrid calls made from level 0. *)
Lemma iter_level_after (k : nat) :
  Nat.iter k (fun l => Math_min 1.0%float (l + 0.01)%float) 0%float
  = level_after k.
Proof.
  induction k as [|k IH]; [reflexivity|].
  rewrite Nat.iter_succ, IH. reflexivity.
Qed.

Lemma level_after_saturated (k : nat) :
  (100 <= k)%nat -> level_after k = 1%float.
Proof.
  intros Hk. induction k as [|k IH]; [lia|].
  destruct (decide (k = 99%nat)) as [->|Hne]; [vm_compute; reflexivity|].
  cbn [level_after]. rewrite IH by lia. reflexivity.
Qed.

(** X22. After [resetConsciousness()], [k] hybrid calls bring the level to
    the value of [k] capped steps of 0.01: it is still below 1.0 for every
    [k < 100], it is exactly 1.0 from the 100th call on, and a reset brings
    it back to 0. *)
Theorem level_saturates (k : nat) (input : jsstring) (s : t) :
  let s' := process_times k input (setMode HYBRID (resetConsciousness s)) in
  consciousnessLevel s' = level_after k
  /\ ((k < 100)%nat -> lt (consciousnessLevel s') 1%float = true)
  /\ ((100 <= k)%nat -> consciousnessLevel s' = 1%float)
  /\ consciousnessLevel (resetConsciousness s') = 0%float.
Proof.
  cbv zeta.
  assert (Hrun : process_times k input (setMode HYBRID (resetConsciousness s))
                 = {| currentMode := HYBRID;
                      consciousnessLevel := level_after k |}).
  { rewrite process_times_hybrid by reflexivity.
    rewrite <- iter_level_after. reflexivity. }
  rewrite Hrun. cbn [consciousnessLevel resetConsciousness].
  split; [reflexivity|]. split; [|split].
  - intros Hk.
    assert (Hall : forallb (fun k => lt (level_after k) 1%float) (seq 0 100)
                   = true) by (vm_compute; reflexivity).
    rewrite forallb_forall in Hall. apply Hall, in_seq. lia.
  - apply level_after_saturated.
  - reflexivity.
Qed.

(** [join] after one more element. *)
Lemma join_snoc (sep : jsstring) (arr : list jsstring) (x : jsstring) :
  join sep (arr ++ [x])
  = match arr with
    | [] => x
    | _ => join sep arr ++ sep ++ x
    end.
Proof.
  induction arr as [|a arr IH]; [reflexivity|].
  destruct arr as [|b arr]; [reflexivity|].
  change (join sep ((a :: b :: arr) ++ [x]))
    with (a ++ sep ++ join sep ((b :: arr) ++ [x])).
  rewrite IH. change (join sep (a :: b :: arr))
    with (a ++ sep ++ join sep (b :: arr)).
  rewrite <- !app_assoc. reflexivity.
Qed.

(** X23. When the returned [memoryState] is passed back as the next
    context, the recalled text more than doubles with every temporal call:
    the join of the returned memory is at least twice as long as the join
    of the supplied one, plus the 3 code units of the arrow. *)
Theorem temporal_memory_doubles (input : jsstring) (memory : list jsstring)
    (s : t) :
  let context := Some {| ctx_memoryState := Some memory |} in
  let r := fst (process input context (setMode TEMPORAL s)) in
  exists memory',
    memoryState r = Some memory'
    /\ length memory' = S (length memory)
    /\ (2 * length (recallMemory memory) + 3 + length input
        <= length (recallMemory memory'))%nat.
Proof.
  cbv zeta. eexists. split; [reflexivity|].
  cbn [context_memory ctx_memoryState default from_option id].
  split; [rewrite length_app; cbn; lia|].
  unfold recallMemory, applyTemporalProcessing, consolidateMemory, recallMemory.
  rewrite join_snoc. destruct memory as [|m memory].
  - cbn. lia.
  - rewrite !length_app. cbn [length]. lia.
Qed.

End NeuralModeControllerMore.

(** ** SparseTensorRing: the mask does not feed back *)

Section MaskIsWriteOnly.
Import SparseTensorRing.

Variable cosf : number -> number.

(** X24. The sparsity mask is written and never read by the transform: two
    rings of equal dimensions compress a text to the same coefficients and
    decompress a coefficient sequence to the same string, whatever their
    masks hold, so earlier calls never influence later results. *)
Theorem results_ignore_mask (text : jsstring) (sparse : list number)
    (s1 s2 : t) :
  ringDimension s1 = ringDimension s2 -> rankBound s1 = rankBound s2 ->
  fst (compress cosf text s1) = fst (compress cosf text s2)
  /\ decompress cosf sparse s1 = decompress cosf sparse s2.
Proof.
  destruct s1 as [dim1 rank1 mask1], s2 as [dim2 rank2 mask2].
  cbn [ringDimension rankBound]. intros <- <-.
  rewrite !compress_filter. split; reflexivity.
Qed.

End MaskIsWriteOnly.

Lemma results_ignore_mask_witness :
  let s1 := SparseTensorRing.new 32 4 in
  let s2 := snd (SparseTensorRing.compress cos_ref (lit "z") s1) in
  SparseTensorRing.ringDimension s1 = SparseTensorRing.ringDimension s2
  /\ SparseTensorRing.rankBound s1 = SparseTensorRing.rankBound s2
  /\ fst (SparseTensorRing.compress cos_ref (lit "z") s1)
     = fst (SparseTensorRing.compress cos_ref (lit "z") s2).
Proof.
  cbv zeta.
  assert (H1 : SparseTensorRing.ringDimension (SparseTensorRing.new 32 4)
               = SparseTensorRing.ringDimension
                   (snd (SparseTensorRing.compress cos_ref (lit "z")
                           (SparseTensorRing.new 32 4))))
    by (vm_compute; reflexivity).
  assert (H2 : SparseTensorRing.rankBound (SparseTensorRing.new 32 4)
               = SparseTensorRing.rankBound
                   (snd (SparseTensorRing.compress cos_ref (lit "z")
                           (SparseTensorRing.new 32 4))))
    by (vm_compute; reflexivity).
  split; [exact H1|]. split; [exact H2|].
  exact (proj1 (results_ignore_mask cos_ref (lit "z") []
                  (SparseTensorRing.new 32 4) _ H1 H2)).
Defined.

(** ** The added functions on known values *)

Example inductive_examples :
  CognitiveLayer.inductiveReason [lit "a b"; lit "a c"; lit "a"] = lit "a"
  /\ CognitiveLayer.inductiveReason [lit "b a"; lit "a b"] = lit "b"
  /\ CognitiveLayer.inductiveReason [] = []
  /\ CognitiveLayer.inductiveReason [lit "x  y"] = lit "x"
  /\ CognitiveLayer.inductiveReason [lit "x  y"; lit " "] = [].
Proof. repeat split. Qed.

Example spiking_example :
  NeuralModeController.processSpiking [120; 233; 8594] = lit "011".
Proof. reflexivity. Qed.

(** Two candidates on a new network: the scores are 0.5 and 1, the reported
    average is 0.75; an engine with room for one argument only throws. *)
Example average_example :
  let patterns := [[1%float; 1%float]; [0%float; 0%float]] in
  (exists s',
     ResonanceNetwork.synchronizeVPUs_host 2 patterns
       (ResonanceNetwork.new 52)
     = (ResonanceNetwork.Returned [0.5%float; 1%float], s')
     /\ ResonanceNetwork.getStats s' = (52%nat, 0.75%float, 1%nat))
  /\ ResonanceNetwork.synchronizeVPUs_host 1 patterns
       (ResonanceNetwork.new 52)
     = (ResonanceNetwork.RangeError, ResonanceNetwork.new 52).
Proof.
  cbv zeta. split; [|reflexivity].
  eexists. split; [vm_compute; reflexivity|]. vm_compute. reflexivity.
Qed.
